(* ===== verification/_CoqProject ===== *)
-Q . S2P
Prelude.v
GoStrings.v
Extract.v
Gmail.v
Base64.v
Selector.v
OAuth.v
Main.v
