(* ===== verification/Prelude.v ===== *)
(** * gmail-retrieve-message: a verification development of src/main.go

    ** The program

    src/main.go is one Go file.  [main] (lines 74-86) reads the sender
    from the environment variable TARGET_SENDER and calls
    [RetrieveUnreadMessageFromSender] (lines 88-160).  That function
    connects to Gmail: it reads credentials.json, goes through the OAuth
    helpers [getClient], [getTokenFromWeb], [tokenFromFile] and
    [saveToken] (lines 20-72), and builds the service.  It prints the
    labels of the account, lists the messages labelled INBOX and fetches
    them in the order of the listing.  The first message that passes the
    label test of line 134 (via [containsLabel], lines 163-170) and has a
    "From" header equal to the sender has its base64url body decoded,
    printed and returned.  [main] prints that body, passes it to
    [extractArtists] (lines 172-199, with [trimCountry], lines 201-206)
    and prints the resulting names as a Go slice, or "No artists
    found!".  The retrieval and the extraction share no state: the body
    string is the only value that flows from one to the other.

    ** The files

    - Prelude.v (this file) holds what the other files share.  Go
      strings are byte lists ([bytes]).  The two ways the program stops
      early are [abort]: [Fatal] for [log.Fatalf] and [Panic] for a
      run-time panic.  It also defines the error monad [result] and the
      IO monad [IO], which records the lines printed on stdout and how
      the run ends, so that output printed before a failure is kept.
      Go's loops are modelled by [for_each], [foldM] and [mapM], with
      their lemmas (Section Loops).  The file also has the rewrite
      database [go_rw] and the tactics [go_simp] and [case_result].
    - GoStrings.v models the Go library functions the extractor calls:
      [Split], [Join], [HasSuffix], [Index], the slice [s[:i]]
      ([slice_to], which panics when [i] is out of range) and
      [TrimSpace] (Unicode white space, as its UTF-8 encodings).  Each
      comes with lemmas that characterise it, for example
      [Join_Split], [TrimSpace_spec] and [TrimSpace_idem].
    - Extract.v models [extractArtists] as the two nested loops of the
      source ([process_line], [process_segment]) and [trimCountry].
      Its abstract specification is [accepted_segments].
    - Gmail.v holds the records of the Gmail API structs the program
      reads and the interface [GmailService] (the three calls).  It also
      defines [Mailbox], a concrete service.
    - Base64.v models [base64.URLEncoding.DecodeString] as a byte-by-byte
      state machine following the library's [decodeQuantum], and
      [EncodeToString].  [decode_body] calls this decoder, as line 148
      calls the library's.
    - Selector.v models [RetrieveUnreadMessageFromSender],
      [containsLabel] and the label and sender tests, against the
      interfaces of Gmail.v.  The fetch loop is [scan_messages] and the
      body decoding is [decode_body].  The abstract specification is
      [first_match] / [select].
    - OAuth.v models the token flow ([getClient], [getTokenFromWeb],
      [tokenFromFile], [saveToken], lines 20-72) and the connection steps
      of lines 89-105 ([connect_os]).  They run in the state monad [Os]
      over an [OsState]: the files (a gmap from path to contents), the
      paths that cannot be opened for writing, whether the disk is full,
      and what is left on standard input.  [os], [fmt.Scan] and the
      libraries ([TokenJSON] for [encoding/json] on tokens, [GoogleAPI]
      for oauth2 and [gmail.NewService]) are modelled from their
      documentation.  Every failure of these steps is a [SetupError] of
      Selector.v, which is how the rest of the model sees connecting.
    - Main.v models [main] on a [World]: the environment, and the
      outcome of connecting.  [main_os] runs it on an [OsState], with the
      connection steps of OAuth.v in front.

    ** The theorems (their claim ids are in their doc comments)

    - Extraction (C1-C7, C9, C10).
      - The loops refine the specification: [extractArtists] is
        [trimCountry] mapped over the accepted pieces.
      - When extraction succeeds or panics, exactly.
      - It is line-wise and ignores lines that do not start with an
        ASCII capital.
      - The shape of every extracted name.
      - A capitalised line whose first piece ends with ")" but has no
        " (" makes [trimCountry] panic instead of being skipped.
      - Extraction is not idempotent: an extracted name that starts
        with a capital and ends with ")" panics when extracted again.
      - Round trip: lines of "Name (Country)" separated by ", " are
        extracted to exactly the names, trailing white space included
        (so "Foo (Live)" gives "Foo", against documented scenario 2).
    - Selection (C11-C23).
      - The loop implements [select] when fetches succeed and messages
        are well formed.
      - It stops at the first match.
      - Non-qualifying prefixes do not matter.
      - A failed fetch ends the run (fail fast).
      - The label and sender tests are stated exactly.
      - The retrieval is the label listing followed by the loop.
      - A snapshot mailbox is served by the first qualifying message of
        the first INBOX page.
      - Only the first page is read: once the INBOX messages fill a
        page, messages listed after them never change the run.
      - A message that passes the label test with a nil payload,
        reached before any match, makes the program panic.
    - Body decoding (C8, C26-C28).
      - The decoded body fits in the [DecodedLen(len(data))] bytes that
        [DecodeString] allocates.
      - A body encoded by [EncodeToString] decodes to the original bytes
        (the round trip [DecodeString_EncodeToString]).
      - Every failure is a nil-pointer panic or a [CorruptInputError]
        with an offset inside the body.
      - Line breaks inserted into the body do not change the result.
    - The program (C24, C25, C29, C39).
      - [main] on every branch.
      - A [log.Fatalf] never comes after a "Decoded body:" line.
      - The whole program on a first run: the authorization prompt and
        the caching notice, then what [main] prints; token.json written.
      - The whole program on every later run: exactly what [main]
        prints, and the machine left unchanged.
    - The token flow (C30-C37).
      - A cached token is used without prompting.
      - The web flow completes when the user types an accepted code.
      - Round trip: a token cached by one run is read back by the next.
      - A failed flow ends with one of three messages and writes nothing.
      - On a full disk the cache is silently left empty (a bug).
      - Connecting writes no file but token.json.
      - Over any sequence of runs on a working disk, token.json stays
        absent or decodable, and once it holds a token no run prompts
        again (invariants over [rtc run_step], by rule induction).
    - Go strings (C38): [strings.Index] and the slice
      [s[:Index(s, " (")]] exactly: -1 and a panic when the separator
      is missing, else its first offset and the bytes before it.

    ** Bounds and fuel

    [TrimLeft_go] and [TrimRight_go] take fuel, because one step removes
    a whole rune, not one byte.  [TrimSpace] gives them [length s], and
    [TrimSpace_fuel] shows that any fuel from [length s] on
    gives the same result: each step removes at least one byte.  Every other
    recursion is structural: on the lines, the pieces, the listed
    messages, the input bytes of the decoder or of [fmt.Scan].  Integers are Z where
    Go computes with int ([Index], the slice bounds of a panic), and the
    24-bit quantum of the decoder is a Z built with [Z.lor] and
    [Z.shiftl], as in the library.  [DecodedLen] is the library's
    [n / 4 * 3] for a padded encoding; the bound on the decoded length
    counts the quanta read ([decode_from_length]), so that the floor
    of the division is taken only once, at the end.

    ** Not modelled

    - What happens behind the library interfaces: the HTTP exchanges of
      oauth2 and Gmail, the refreshing of an expired token inside
      [config.Client], and the JSON text of a token.  [TokenJSON] states
      only what the program relies on: decoding an encoded token gives it
      back, and an empty file gives [io.EOF].
    - Standard input is taken to be ASCII: [fmt.Scan] also skips the
      Unicode white-space runes, which a typed authorization code does
      not contain.  File modes (0600) and [defer f.Close()] have no
      observable effect in the model.
    - The fields of the API structs that the program does not read.
    - The fast paths of the base64 decoder: they decode the same quanta
      as [decodeQuantum].
    - Pagination: the program reads only the first page of the listing,
      and that is what is modelled. *)

From Stdlib Require Import Ascii ZArith Lia.
From stdpp Require Import base list strings option.

(** ** Go strings

    A Go [string] is an immutable sequence of bytes; [len], indexing and
    slicing count bytes.  We model it as a list of 8-bit characters, so
    that stdpp's list library ([take], [drop], [prefix_of], [suffix_of])
    applies.  String literals of the source are written as Rocq string
    literals and coerced. *)
Abbreviation bytes := (list ascii).
Coercion String.list_ascii_of_string : string >-> list.

(** Literal lists of Go strings, and a body of several lines, for
    concrete runs. *)
Definition strs (ls : list string) : list bytes := map String.list_ascii_of_string ls.

(** The byte value of a character, as Go compares bytes ([line[0] >= 'A']). *)
Definition byte_val (c : ascii) : nat := nat_of_ascii c.

(** ** Go's ways of stopping a program early *)

(** A run-time panic.  Only the two that this program can raise. *)
Inductive panic_reason :=
| SliceBoundsOutOfRange (hi : Z) (len : Z)   (** [s[:hi]] with [hi] outside [0, len(s)] *)
| NilPointerDereference.                      (** a field read through a nil pointer *)

Inductive abort :=
| Fatal (msg : bytes)           (** [log.Fatalf]: the message on stderr, then [os.Exit(1)] *)
| Panic (why : panic_reason).   (** a run-time panic: exit status 2 *)

(** ** The error monad: a computation that returns or stops the program *)

Inductive result (A : Type) := Ok (a : A) | Err (e : abort).
Arguments Ok {A} a.
Arguments Err {A} e.

#[export] Instance result_ret : MRet result := λ A a, Ok a.
#[export] Instance result_bind : MBind result :=
  λ A B f m, match m with Ok a => f a | Err e => Err e end.

(** ** The IO monad: a writer of what the program prints on stdout,
    together with how the computation ends.  What was printed before a
    [log.Fatalf] or a panic stays printed. *)

Record IO (A : Type) := mkIO { io_out : list bytes; io_res : result A }.
Arguments mkIO {A} io_out io_res.
Arguments io_out {A} _.
Arguments io_res {A} _.

#[export] Instance io_ret : MRet IO := λ A a, mkIO [] (Ok a).
#[export] Instance io_bind : MBind IO :=
  λ A B f m,
    match io_res m with
    | Ok a => mkIO (io_out m ++ io_out (f a)) (io_res (f a))
    | Err e => mkIO (io_out m) (Err e)
    end.

(** [fmt.Println(s)] writes [s] followed by a newline. *)
Definition println (s : bytes) : IO unit := mkIO [s ++ "010"%char :: []] (Ok tt).

(** [log.Fatalf(format, err)]: the formatted message, then exit. *)
Definition fatal {A} (msg : bytes) : IO A := mkIO [] (Err (Fatal msg)).

(** A pure computation that may panic, run inside IO. *)
Definition lift {A} (r : result A) : IO A := mkIO [] r.

(** [for _, x := range l { body }] where the body may abort. *)
Fixpoint for_each {A} (body : A → IO unit) (l : list A) : IO unit :=
  match l with
  | [] => mret tt
  | x :: l' => body x ;; for_each body l'
  end.

(** A loop that threads an accumulator and may abort. *)
Fixpoint foldM {A B} (f : A → B → result A) (acc : A) (l : list B) : result A :=
  match l with
  | [] => Ok acc
  | x :: l' => f acc x ≫= λ acc', foldM f acc' l'
  end.

(** Apply a fallible function to every element, stopping at the first abort. *)
Fixpoint mapM {A B} (f : A → result B) (l : list A) : result (list B) :=
  match l with
  | [] => Ok []
  | x :: l' => f x ≫= λ y, mapM f l' ≫= λ ys, Ok (y :: ys)
  end.

(** ** Notation for the development *)

Declare Scope go_scope.
Delimit Scope go_scope with go.
(** [s ⊕ t]: Go's string concatenation [s + t]. *)
Notation "s ⊕ t" := (@app ascii s%go t%go) (at level 60, right associativity) : go_scope.
Open Scope go_scope.

(** ** Shared automation *)

Create Rewrite HintDb go_rw.
Create HintDb go_db discriminated.

Lemma result_bind_Ok {A B} (a : A) (f : A → result B) : (Ok a ≫= f) = f a.
Proof. reflexivity. Qed.

Lemma result_bind_Err {A B} (e : abort) (f : A → result B) : (Err e ≫= f) = Err e.
Proof. reflexivity. Qed.

Lemma result_bind_assoc {A B C} (m : result A) (f : A → result B) (g : B → result C) :
  ((m ≫= f) ≫= g) = (m ≫= λ a, f a ≫= g).
Proof. by destruct m. Qed.

Lemma result_bind_ret {A} (m : result A) : (m ≫= λ a, Ok a) = m.
Proof. by destruct m. Qed.

Lemma result_bind_Ok_inv {A B} (m : result A) (f : A → result B) b :
  (m ≫= f) = Ok b → ∃ a, m = Ok a ∧ f a = Ok b.
Proof. destruct m; simpl; [eauto | discriminate]. Qed.

#[export] Hint Rewrite @result_bind_Ok @result_bind_Err @result_bind_assoc
  @result_bind_ret : go_rw.

(** Two IO computations are equal when they print the same and end the same. *)
Lemma IO_eq {A} (m1 m2 : IO A) :
  io_out m1 = io_out m2 → io_res m1 = io_res m2 → m1 = m2.
Proof. destruct m1, m2; simpl; congruence. Qed.

Lemma io_bind_Ok {A B} out (a : A) (f : A → IO B) :
  (mkIO out (Ok a) ≫= f) = mkIO (out ++ io_out (f a)) (io_res (f a)).
Proof. reflexivity. Qed.

Lemma io_bind_Err {A B} out e (f : A → IO B) :
  (mkIO out (Err e) ≫= f) = mkIO out (Err e).
Proof. reflexivity. Qed.

Lemma io_ret_bind {A B} (a : A) (f : A → IO B) : (mret a ≫= f) = f a.
Proof. cbv [mret io_ret mbind io_bind]; cbn. case (f a); reflexivity. Qed.

Lemma io_bind_assoc {A B C} (m : IO A) (f : A → IO B) (g : B → IO C) :
  ((m ≫= f) ≫= g) = (m ≫= λ a, f a ≫= g).
Proof.
  destruct m as [out [a|e]]; [|reflexivity].
  cbn. destruct (f a) as [out' [b|e']]; cbn; [|by rewrite ?app_nil_r].
  by rewrite app_assoc.
Qed.

Lemma lift_Ok {A B} (a : A) (f : A → IO B) : (lift (Ok a) ≫= f) = f a.
Proof. apply io_ret_bind. Qed.

Lemma lift_Err {A B} e (f : A → IO B) : (lift (Err e) ≫= f) = lift (Err e).
Proof. reflexivity. Qed.

#[export] Hint Rewrite @io_bind_Ok @io_bind_Err @io_ret_bind @io_bind_assoc
  @lift_Ok @lift_Err : go_rw.

(** Simplify the monadic plumbing of a goal. *)
Ltac go_simp := repeat (autorewrite with go_rw in *; cbn [foldM mapM for_each] in *).

(** Case on the result of a computation and simplify both branches. *)
Ltac case_result m :=
  let a := fresh "a" in let e := fresh "e" in let E := fresh "E" in
  destruct m as [a|e] eqn:E; go_simp.

(** ** Loops over lists *)

Section Loops.
Context {A B : Type}.

Lemma foldM_app (f : A → B → result A) acc l1 l2 :
  foldM f acc (l1 ++ l2) = foldM f acc l1 ≫= λ a, foldM f a l2.
Proof.
  revert acc. induction l1 as [|x l1 IH]; intros acc; [reflexivity|].
  cbn. destruct (f acc x); cbn; auto.
Qed.

Lemma mapM_app (f : A → result B) l1 l2 :
  mapM f (l1 ++ l2) = mapM f l1 ≫= λ ys1, mapM f l2 ≫= λ ys2, Ok (ys1 ++ ys2).
Proof.
  induction l1 as [|x l1 IH]; cbn.
  - by destruct (mapM f l2).
  - destruct (f x); cbn; [|done]. rewrite IH.
    destruct (mapM f l1); cbn; [|done]. by destruct (mapM f l2).
Qed.

(** The accumulator pattern [acc = append(acc, ys...)] of a Go loop is a
    [mapM] followed by one concatenation. *)
Lemma foldM_append_mapM (g : B → result (list A)) acc l :
  foldM (λ acc x, g x ≫= λ ys, Ok (acc ++ ys)) acc l
  = mapM g l ≫= λ yss, Ok (acc ++ concat yss).
Proof.
  revert acc. induction l as [|x l IH]; intros acc; cbn.
  - by rewrite app_nil_r.
  - destruct (g x) as [ys|e]; cbn; [|done]. rewrite IH.
    destruct (mapM g l); cbn; [|done]. by rewrite app_assoc.
Qed.

Lemma mapM_Ok_iff (f : A → result B) l ys :
  mapM f l = Ok ys ↔ Forall2 (λ x y, f x = Ok y) l ys.
Proof.
  revert ys. induction l as [|x l IH]; intros ys; cbn.
  - split; [intros [= <-]; constructor | by inversion 1].
  - split.
    + destruct (f x) as [y|] eqn:Hx; cbn; [|done].
      destruct (mapM f l) as [ys'|] eqn:E; cbn; [|done].
      intros [= <-]. constructor; [done|]. by apply (IH ys').
    + inversion 1 as [|? y ? ys' Hy Hl]; subst.
      rewrite Hy. cbn. by rewrite (proj2 (IH ys') Hl).
Qed.

(** [mapM] stops at the first element on which [f] aborts. *)
Lemma mapM_Err_iff (f : A → result B) l e :
  mapM f l = Err e ↔
  ∃ l1 x l2, l = l1 ++ x :: l2 ∧ Forall (λ x, ∃ y, f x = Ok y) l1 ∧ f x = Err e.
Proof.
  induction l as [|x l IH]; cbn.
  { split; [done|]. intros (l1 & ? & ? & H & _). by destruct l1. }
  destruct (f x) as [y|e'] eqn:Hx; cbn.
  - assert (∀ l1 w l2, x :: l = l1 ++ w :: l2 → Forall (λ x, ∃ y, f x = Ok y) l1 →
              f w = Err e → mapM f l = Err e) as Hback.
    { intros [|z l1] w l2 Hl Hl1 Hw; simplify_eq/=; [congruence|].
      apply IH. exists l1, w, l2. inversion Hl1; auto. }
    destruct (mapM f l) as [ys|e''] eqn:E; cbn.
    + split; [done|]. intros (l1 & w & l2 & H1 & H2 & H3). discriminate (Hback l1 w l2 H1 H2 H3).
    + split.
      * intros [= ->]. destruct (proj1 IH eq_refl) as (l1 & z & l2 & -> & ? & ?).
        exists (x :: l1), z, l2. eauto.
      * intros (l1 & w & l2 & H1 & H2 & H3). exact (Hback l1 w l2 H1 H2 H3).
  - split.
    + intros [= ->]. exists [], x, l. auto.
    + intros ([|z l1] & w & l2 & Hl & Hl1 & Hw); simplify_eq/=; [congruence|].
      inversion Hl1 as [|? ? [? ?]]. congruence.
Qed.

Lemma mapM_map {C} (f : A → result B) (g : C → A) l :
  mapM f (map g l) = mapM (f ∘ g) l.
Proof. induction l as [|x l IH]; cbn; [done|]. by rewrite IH. Qed.
Lemma foldM_ext (f g : A → B → result A) acc l :
  (∀ a x, f a x = g a x) → foldM f acc l = foldM g acc l.
Proof.
  intros Hfg. revert acc. induction l as [|x l IH]; intros acc; cbn; [done|].
  rewrite Hfg. destruct (g acc x); cbn; auto.
Qed.

Lemma mapM_ext (f g : A → result B) l : (∀ x, f x = g x) → mapM f l = mapM g l.
Proof. intros Hfg. induction l as [|x l IH]; cbn; [done|]. by rewrite Hfg, IH. Qed.

Lemma mapM_concat (f : A → result B) ls :
  mapM f (concat ls) = mapM (mapM f) ls ≫= λ yss, Ok (concat yss).
Proof.
  induction ls as [|l ls IH]; cbn; [done|].
  rewrite mapM_app, IH. destruct (mapM f l); cbn; [|done].
  by destruct (mapM (mapM f) ls).
Qed.
Lemma Forall2_elem_r (P : A → B → Prop) l k y :
  Forall2 P l k → y ∈ k → ∃ x, x ∈ l ∧ P x y.
Proof.
  induction 1 as [|x y' l k Hxy _ IH]; [by intros ?%not_elem_of_nil|].
  intros [->|Hy]%elem_of_cons; [exists x; split; [left|]; done|].
  destruct (IH Hy) as (x' & ? & ?). exists x'. split; [by right|done].
Qed.

Lemma find_ext_elem (f g : A → bool) l :
  (∀ x, x ∈ l → f x = g x) → List.find f l = List.find g l.
Proof.
  induction l as [|x l IH]; intros Hfg; cbn; [done|].
  rewrite (Hfg x) by (by left). destruct (g x); [done|].
  apply IH. intros y Hy. apply Hfg. by right.
Qed.

End Loops.

(** Printing every element of a list, in order. *)
Lemma for_each_println {A} (show : A → bytes) (l : list A) :
  for_each (λ x, println (show x)) l = mkIO (map (λ x, show x ++ "010"%char :: []) l) (Ok tt).
Proof.
  induction l as [|x l IH]; [reflexivity|]. cbn [for_each]. rewrite IH. reflexivity.
Qed.

Lemma println_bind {B} (s : bytes) (f : unit → IO B) :
  (println s ≫= f) = mkIO ((s ++ ["010"%char]) :: io_out (f tt)) (io_res (f tt)).
Proof. reflexivity. Qed.

Lemma for_each_println_bind {A B} (show : A → bytes) (l : list A) (f : unit → IO B) :
  (for_each (λ x, println (show x)) l ≫= f) =
  mkIO (map (λ x, show x ++ ["010"%char]) l ++ io_out (f tt)) (io_res (f tt)).
Proof. by rewrite for_each_println, io_bind_Ok. Qed.

#[export] Hint Rewrite @println_bind @for_each_println_bind : go_rw.
