(* ===== verification/GoStrings.v ===== *)
(** * The Go [strings] functions that src/main.go calls

    [strings.Split], [strings.Join], [strings.HasSuffix], [strings.Index],
    the slice expression [s[:i]] and [strings.TrimSpace], on Go strings
    modelled as byte lists ([bytes], see Prelude).  These belong to Go's
    standard library, not to the repository: they are written from the
    documented behaviour of Go 1.x (the library source is the reference),
    and each comes with the lemmas that characterise it, so that the
    theorems about [extractArtists] rest on those lemmas only. *)

From Stdlib Require Import Ascii ZArith Lia.
From stdpp Require Import base list strings option.
From S2P Require Import Prelude.

(** ** [strings.Split(s, sep)] with a one-byte separator

    Both calls in the source split on a one-byte separator ("\n" and ",").
    Go's [genSplit] cuts [s] at every occurrence of [sep]; the result has
    one more element than there are separators, so [Split("", sep)] is
    [[""]]. *)
Fixpoint Split (s : bytes) (sep : ascii) : list bytes :=
  match s with
  | [] => [[]]
  | c :: s' =>
      let rest := Split s' sep in
      if decide (c = sep) then [] :: rest
      else match rest with
           | [] => [[c]]
           | w :: ws => (c :: w) :: ws
           end
  end.

(** [strings.Join(elems, sep)]. *)
Fixpoint Join (elems : list bytes) (sep : bytes) : bytes :=
  match elems with
  | [] => []
  | [w] => w
  | w :: ws => w ++ sep ++ Join ws sep
  end.

(** ** [strings.HasSuffix(s, suffix)]:
    [len(s) >= len(suffix) && s[len(s)-len(suffix):] == suffix]. *)
Definition HasSuffix (s suffix : bytes) : bool :=
  (length suffix <=? length s) && bool_decide (drop (length s - length suffix) s = suffix).

(** ** [strings.Index(s, substr)]: the byte offset of the first occurrence
    of [substr] in [s], or -1. *)
Fixpoint index_from (s sub : bytes) : option nat :=
  if bool_decide (sub `prefix_of` s) then Some 0
  else match s with
       | [] => None
       | _ :: s' => S <$> index_from s' sub
       end.

Definition Index (s sub : bytes) : Z :=
  match index_from s sub with
  | Some n => Z.of_nat n
  | None => (-1)%Z
  end.

(** ** The slice expression [s[:hi]] on a string: it panics unless
    [0 <= hi <= len(s)]. *)
Definition slice_to (s : bytes) (hi : Z) : result bytes :=
  if decide (0 ≤ hi ≤ Z.of_nat (length s))%Z then Ok (take (Z.to_nat hi) s)
  else Err (Panic (SliceBoundsOutOfRange hi (Z.of_nat (length s)))).

(** ** Lemmas on [Split] and [Join] *)

Section SplitLemmas.
Context (sep : ascii).

Lemma Split_not_nil s : Split s sep ≠ [].
Proof.
  induction s as [|c s IH]; cbn; [done|].
  case_decide; [done|]. by destruct (Split s sep).
Qed.

Lemma Split_cons_sep s : Split (sep :: s) sep = [] :: Split s sep.
Proof. cbn. by rewrite decide_True. Qed.

Lemma Split_cons_other c s w ws :
  c ≠ sep → Split s sep = w :: ws → Split (c :: s) sep = (c :: w) :: ws.
Proof. intros Hc Hs. cbn. rewrite decide_False by done. by rewrite Hs. Qed.

(** A string with no separator is not cut. *)
Lemma Split_no_sep s : sep ∉ s → Split s sep = [s].
Proof.
  induction s as [|c s IH]; intros Hs; [done|].
  apply not_elem_of_cons in Hs as [Hc Hs].
  apply Split_cons_other; auto.
Qed.

(** Splitting distributes over a separator. *)
Lemma Split_app_sep s1 s2 :
  Split (s1 ++ sep :: s2) sep = Split s1 sep ++ Split s2 sep.
Proof.
  induction s1 as [|c s1 IH]; cbn [app].
  - by rewrite Split_cons_sep.
  - destruct (decide (c = sep)) as [->|Hc].
    + rewrite !Split_cons_sep, IH. done.
    + destruct (Split s1 sep) as [|w ws] eqn:E; [by destruct (Split_not_nil s1)|].
      rewrite (Split_cons_other c s1 w ws Hc E).
      apply Split_cons_other; [done|]. by rewrite IH.
Qed.

(** No piece contains the separator. *)
Lemma Split_pieces_no_sep s w : w ∈ Split s sep → sep ∉ w.
Proof.
  revert w. induction s as [|c s IH]; intros w Hw; cbn in Hw.
  - apply list_elem_of_singleton in Hw as ->. apply not_elem_of_nil.
  - case_decide; [apply elem_of_cons in Hw as [->|Hw]; [apply not_elem_of_nil|auto]|].
    destruct (Split s sep) as [|v vs] eqn:E; [by destruct (Split_not_nil s)|].
    apply elem_of_cons in Hw as [->|Hw].
    + apply not_elem_of_cons. split; [done|]. apply IH. by left.
    + apply IH. by right.
Qed.

(** Every piece is made of bytes of the string. *)
Lemma Split_pieces_sub s w : w ∈ Split s sep → w ⊆ s.
Proof.
  revert w. induction s as [|c s IH]; intros w Hw; cbn in Hw.
  - by apply list_elem_of_singleton in Hw as ->.
  - case_decide; [apply elem_of_cons in Hw as [->|Hw]; [apply list_subseteq_nil|]|].
    + by apply list_subseteq_cons, IH.
    + destruct (Split s sep) as [|v vs] eqn:E; [by destruct (Split_not_nil s)|].
      apply elem_of_cons in Hw as [->|Hw].
      * apply list_subseteq_skip, IH. by left.
      * apply list_subseteq_cons, IH. by right.
Qed.
End SplitLemmas.

Section JoinLemmas.
Context (sep : ascii).

Lemma Join_cons_head c w ws s : Join ((c :: w) :: ws) s = c :: Join (w :: ws) s.
Proof. by destruct ws. Qed.

(** Round trip: joining the pieces with the separator gives the string back. *)
Lemma Join_Split s : Join (Split s sep) [sep] = s.
Proof.
  induction s as [|c s IH]; [done|]. cbn.
  case_decide as Hc.
  - destruct (Split s sep) as [|w ws] eqn:E; [by destruct (Split_not_nil sep s)|].
    cbn. by rewrite <- IH, Hc.
  - destruct (Split s sep) as [|w ws] eqn:E; [by destruct (Split_not_nil sep s)|].
    by rewrite Join_cons_head, IH.
Qed.

(** Round trip the other way: pieces free of the separator come back. *)
Lemma Split_Join ws :
  ws ≠ [] → (∀ w, w ∈ ws → sep ∉ w) → Split (Join ws [sep]) sep = ws.
Proof.
  induction ws as [|w [|w' ws] IH]; intros Hne Hws; [done| |].
  - cbn. rewrite Split_no_sep; [done|]. apply Hws. by left.
  - change (Join (w :: w' :: ws) [sep]) with (w ++ sep :: Join (w' :: ws) [sep]).
    rewrite Split_app_sep, Split_no_sep by (apply Hws; by left).
    rewrite IH; [done|done|]. intros v Hv. apply Hws. by right.
Qed.

Lemma Join_app_head t w ws s : Join ((t ++ w) :: ws) s = t ++ Join (w :: ws) s.
Proof.
  destruct ws as [|v ws]; [done|].
  change (Join ((t ++ w) :: v :: ws) s) with ((t ++ w) ++ s ++ Join (v :: ws) s).
  change (Join (w :: v :: ws) s) with (w ++ s ++ Join (v :: ws) s).
  by rewrite <- app_assoc.
Qed.

(** Joining with [c :: t] is joining with [c] the pieces after the first
    prefixed by [t]: a ", "-separated list split on "," keeps the spaces. *)
Lemma Join_cons_sep c t w ws : Join (w :: ws) (c :: t) = Join (w :: map (λ v, t ++ v) ws) [c].
Proof.
  revert w. induction ws as [|v ws IH]; intros w; [done|]. cbn [map].
  change (Join (w :: v :: ws) (c :: t)) with (w ++ (c :: t) ++ Join (v :: ws) (c :: t)).
  change (Join (w :: (t ++ v) :: map (λ v, t ++ v) ws) [c])
    with (w ++ [c] ++ Join ((t ++ v) :: map (λ v, t ++ v) ws) [c]).
  by rewrite IH, Join_app_head.
Qed.

(** A byte in neither the pieces nor the separator is not in the join. *)
Lemma Join_not_elem x ws s : x ∉ s → (∀ w, w ∈ ws → x ∉ w) → x ∉ Join ws s.
Proof.
  intros Hs. induction ws as [|w ws IH]; intros Hws; [apply not_elem_of_nil|].
  destruct ws as [|w' ws]; [apply Hws; by left|].
  change (Join (w :: w' :: ws) s) with (w ++ s ++ Join (w' :: ws) s).
  rewrite !elem_of_app. intros [Hx|[Hx|Hx]]; [by apply (Hws w); [left|]|done|].
  revert Hx. apply IH. intros v Hv. apply Hws. by right.
Qed.
End JoinLemmas.

(** ** Lemmas on [HasSuffix], [Index] and slicing *)

Lemma HasSuffix_spec s suffix : HasSuffix s suffix = true ↔ suffix `suffix_of` s.
Proof.
  unfold HasSuffix. rewrite andb_true_iff, Nat.leb_le, bool_decide_eq_true.
  split.
  - intros [_ <-]. apply suffix_drop.
  - intros [l ->]. rewrite length_app.
    replace (length l + length suffix - length suffix) with (length l) by lia.
    split; [lia|]. apply drop_app_length.
Qed.

Lemma index_from_le s sub i : index_from s sub = Some i → i ≤ length s.
Proof.
  revert i. induction s as [|c s IH]; intros i; cbn; case_bool_decide; intros Hi.
  - injection Hi as <-. lia.
  - done.
  - injection Hi as <-. lia.
  - destruct (index_from s sub) as [k|] eqn:E; cbn in Hi; [|done].
    injection Hi as <-. specialize (IH k eq_refl). lia.
Qed.

(** [Index] finds an occurrence, and no earlier one. *)
Lemma index_from_Some s sub i :
  index_from s sub = Some i →
  sub `prefix_of` drop i s ∧ ∀ j, j < i → ¬ sub `prefix_of` drop j s.
Proof.
  revert i. induction s as [|c s IH]; intros i; cbn; case_bool_decide as Hp; intros Hi.
  - injection Hi as <-. split; [done|lia].
  - done.
  - injection Hi as <-. split; [done|lia].
  - destruct (index_from s sub) as [k|] eqn:E; cbn in Hi; [|done].
    injection Hi as <-. destruct (IH k eq_refl) as [Hk Hbefore].
    split; [done|]. intros [|j] Hj; [done|]. apply Hbefore. lia.
Qed.

Lemma index_from_None s sub :
  index_from s sub = None → ∀ j, ¬ sub `prefix_of` drop j s.
Proof.
  induction s as [|c s IH]; cbn; case_bool_decide as Hp; intros Hi; try done.
  - intros j. by rewrite drop_nil.
  - destruct (index_from s sub) eqn:E; cbn in Hi; [done|].
    intros [|j]; [done|]. by apply IH.
Qed.

Lemma index_from_absent s sub :
  (∀ j, ¬ sub `prefix_of` drop j s) → index_from s sub = None.
Proof.
  intros H. destruct (index_from s sub) as [i|] eqn:E; [|done].
  exfalso. apply (H i), (index_from_Some _ _ _ E).
Qed.

Lemma index_from_unfold s sub :
  index_from s sub =
  if bool_decide (sub `prefix_of` s) then Some 0
  else match s with [] => None | _ :: s' => S <$> index_from s' sub end.
Proof. by destruct s. Qed.

(** The first " (" of [n ++ " (" ++ t] is the one after [n] when [n]
    has none: an occurrence cannot straddle the end of [n], because
    " (" does not start with "(". *)
Lemma index_from_paren n t :
  index_from n " (" = None → index_from (n ++ " (" ++ t) " (" = Some (length n).
Proof.
  induction n as [|c n IH]; intros Hn.
  - rewrite index_from_unfold, bool_decide_true; [done|]. by exists t.
  - assert (index_from n " (" = None) as Hn'.
    { revert Hn. cbn [index_from]. destruct (bool_decide _); [done|]. by destruct (index_from n _). }
    rewrite <- app_comm_cons, index_from_unfold, bool_decide_false; [by rewrite IH|].
    intros [k Hk]. injection Hk as -> Hk. destruct n as [|d n]; [discriminate|].
    injection Hk as -> _. revert Hn. cbn [index_from]. by rewrite bool_decide_true by (by exists n).
Qed.

(** [s[:strings.Index(s, sub)]] when [sub] occurs: the bytes before it. *)
Lemma slice_to_Index_found s sub i :
  index_from s sub = Some i → slice_to s (Index s sub) = Ok (take i s).
Proof.
  intros Hi. pose proof (index_from_le _ _ _ Hi).
  unfold Index, slice_to. rewrite Hi, decide_True by lia. by rewrite Nat2Z.id.
Qed.

(** ... and when it does not: [s[:-1]] panics. *)
Lemma slice_to_Index_missing s sub :
  index_from s sub = None →
  slice_to s (Index s sub) = Err (Panic (SliceBoundsOutOfRange (-1) (Z.of_nat (length s)))).
Proof. intros Hi. unfold Index, slice_to. rewrite Hi, decide_False by lia. done. Qed.

(** ** [strings.TrimSpace(s)]

    Go trims every leading and trailing rune for which [unicode.IsSpace]
    holds: the ASCII bytes \t \n \v \f \r and space, and the runes U+0085,
    U+00A0, U+1680, U+2000 to U+200A, U+2028, U+2029, U+202F, U+205F and
    U+3000.  On a byte string these are exactly the UTF-8 encodings listed
    below: a leading (trailing) rune decodes to a white-space rune exactly
    when the string starts (ends) with one of these encodings, and an
    invalid byte decodes to U+FFFD, which is not white space.  The ASCII
    fast path of [TrimSpace] gives the same result as this rune-wise
    trimming, left end first. *)
Definition space_runes : list bytes :=
  map (map ascii_of_nat)
    [ [9]; [10]; [11]; [12]; [13]; [32];
      [194; 133]; [194; 160]; [225; 154; 128];
      [226; 128; 128]; [226; 128; 129]; [226; 128; 130]; [226; 128; 131];
      [226; 128; 132]; [226; 128; 133]; [226; 128; 134]; [226; 128; 135];
      [226; 128; 136]; [226; 128; 137]; [226; 128; 138];
      [226; 128; 168]; [226; 128; 169]; [226; 128; 175];
      [226; 129; 159]; [227; 128; 128] ].

(** Remove one leading white-space rune, if there is one. *)
Definition strip_space_prefix (s : bytes) : option bytes :=
  (λ r, drop (length r) s) <$> List.find (λ r, bool_decide (r `prefix_of` s)) space_runes.

(** Remove one trailing white-space rune, if there is one. *)
Definition strip_space_suffix (s : bytes) : option bytes :=
  (λ r, take (length s - length r) s) <$> List.find (λ r, bool_decide (r `suffix_of` s)) space_runes.

(** Each step removes at least one byte, so [length s] steps suffice
    (lemmas [TrimLeft_go_spec] and [TrimRight_go_spec] below). *)
Fixpoint TrimLeft_go (fuel : nat) (s : bytes) : bytes :=
  match fuel with
  | 0 => s
  | S fuel' => match strip_space_prefix s with
               | Some s' => TrimLeft_go fuel' s'
               | None => s
               end
  end.

Fixpoint TrimRight_go (fuel : nat) (s : bytes) : bytes :=
  match fuel with
  | 0 => s
  | S fuel' => match strip_space_suffix s with
               | Some s' => TrimRight_go fuel' s'
               | None => s
               end
  end.

Definition TrimSpace (s : bytes) : bytes :=
  let t := TrimLeft_go (length s) s in TrimRight_go (length t) t.

(** *** Lemmas on [TrimSpace] *)

Lemma space_runes_not_nil r : r ∈ space_runes → r ≠ [].
Proof.
  intros Hr ->. assert (bool_decide ([] ∈ space_runes) = false) as H by reflexivity.
  by apply bool_decide_eq_false in H.
Qed.

Lemma space_rune_space : [" "%char] ∈ space_runes.
Proof. apply (bool_decide_eq_true_1 _). reflexivity. Qed.

Lemma find_Some_elem {A} (p : A → bool) l x : List.find p l = Some x → x ∈ l ∧ p x = true.
Proof. intros H. split; [apply list_elem_of_In; by eapply find_some|by eapply find_some]. Qed.

Lemma find_None_elem {A} (p : A → bool) l x : List.find p l = None → x ∈ l → p x = false.
Proof. intros H Hx. apply list_elem_of_In in Hx. by eapply find_none. Qed.

Lemma strip_space_prefix_Some s s' :
  strip_space_prefix s = Some s' → ∃ r, r ∈ space_runes ∧ s = r ++ s'.
Proof.
  unfold strip_space_prefix. destruct (List.find _ _) as [r|] eqn:E; [|done].
  intros [= <-]. apply find_Some_elem in E as [Hr Hp%bool_decide_eq_true].
  exists r. split; [done|]. destruct Hp as [k ->]. by rewrite drop_app_length.
Qed.

Lemma strip_space_prefix_None s :
  strip_space_prefix s = None ↔ ∀ r, r ∈ space_runes → ¬ r `prefix_of` s.
Proof.
  unfold strip_space_prefix. destruct (List.find _ _) as [r|] eqn:E; cbn; split; try done.
  - apply find_Some_elem in E as [Hr Hp%bool_decide_eq_true]. intros H. by destruct (H r Hr).
  - intros _ r Hr. apply (bool_decide_eq_false_1 _).
    exact (find_None_elem (λ r, bool_decide (r `prefix_of` s)) _ r E Hr).
Qed.

Lemma strip_space_suffix_Some s s' :
  strip_space_suffix s = Some s' → ∃ r, r ∈ space_runes ∧ s = s' ++ r.
Proof.
  unfold strip_space_suffix. destruct (List.find _ _) as [r|] eqn:E; [|done].
  intros [= <-]. apply find_Some_elem in E as [Hr Hp%bool_decide_eq_true].
  exists r. split; [done|]. destruct Hp as [k ->]. rewrite length_app.
  replace (length k + length r - length r) with (length k) by lia. by rewrite take_app_length.
Qed.

Lemma strip_space_suffix_None s :
  strip_space_suffix s = None ↔ ∀ r, r ∈ space_runes → ¬ r `suffix_of` s.
Proof.
  unfold strip_space_suffix. destruct (List.find _ _) as [r|] eqn:E; cbn; split; try done.
  - apply find_Some_elem in E as [Hr Hp%bool_decide_eq_true]. intros H. by destruct (H r Hr).
  - intros _ r Hr. apply (bool_decide_eq_false_1 _).
    exact (find_None_elem (λ r, bool_decide (r `suffix_of` s)) _ r E Hr).
Qed.

Lemma strip_space_prefix_nil : strip_space_prefix [] = None.
Proof. reflexivity. Qed.

Lemma strip_space_suffix_nil : strip_space_suffix [] = None.
Proof. reflexivity. Qed.

(** A prefix of a string without a leading space rune has none either,
    unless it is shorter than every rune it could start. *)
Lemma strip_space_prefix_None_prefix s t :
  t `prefix_of` s → strip_space_prefix s = None → strip_space_prefix t = None.
Proof.
  rewrite !strip_space_prefix_None. intros Hts Hs r Hr Hrt.
  apply (Hs r Hr). by trans t.
Qed.

Lemma TrimLeft_go_id fuel s : strip_space_prefix s = None → TrimLeft_go fuel s = s.
Proof. destruct fuel; cbn [TrimLeft_go TrimRight_go]; [done|]. by intros ->. Qed.

Lemma TrimRight_go_id fuel s : strip_space_suffix s = None → TrimRight_go fuel s = s.
Proof. destruct fuel; cbn [TrimLeft_go TrimRight_go]; [done|]. by intros ->. Qed.

(** Fuel adequacy: with [length s] steps the left trimming is complete. *)
Lemma TrimLeft_go_spec fuel s :
  length s ≤ fuel →
  strip_space_prefix (TrimLeft_go fuel s) = None ∧ TrimLeft_go fuel s `suffix_of` s.
Proof.
  revert s. induction fuel as [|fuel IH]; intros s Hs; cbn [TrimLeft_go].
  - destruct s; [|cbn in Hs; lia]. by split.
  - destruct (strip_space_prefix s) as [s'|] eqn:E; [|by split].
    destruct (strip_space_prefix_Some _ _ E) as (r & Hr & ->).
    pose proof (space_runes_not_nil r Hr). destruct r as [|b r]; [done|].
    cbn in Hs. rewrite length_app in Hs.
    destruct (IH s') as [H1 H2]; [lia|]. split; [done|].
    by apply suffix_app_r.
Qed.

Lemma TrimRight_go_spec fuel s :
  length s ≤ fuel →
  strip_space_suffix (TrimRight_go fuel s) = None ∧ TrimRight_go fuel s `prefix_of` s.
Proof.
  revert s. induction fuel as [|fuel IH]; intros s Hs; cbn [TrimRight_go].
  - destruct s; [|cbn in Hs; lia]. by split.
  - destruct (strip_space_suffix s) as [s'|] eqn:E; [|by split].
    destruct (strip_space_suffix_Some _ _ E) as (r & Hr & ->).
    pose proof (space_runes_not_nil r Hr). destruct r as [|b r]; [done|].
    rewrite length_app in Hs. cbn in Hs.
    destruct (IH s') as [H1 H2]; [lia|]. split; [done|].
    by apply prefix_app_r.
Qed.

(** [TrimSpace] leaves no white-space rune at either end, and returns a
    substring of its argument. *)
Lemma TrimSpace_spec s :
  strip_space_prefix (TrimSpace s) = None ∧ strip_space_suffix (TrimSpace s) = None ∧
  ∃ pre post, s = pre ++ TrimSpace s ++ post.
Proof.
  unfold TrimSpace.
  destruct (TrimLeft_go_spec (length s) s) as [HL [k1 Hk1]]; [done|].
  set (t := TrimLeft_go (length s) s) in *.
  destruct (TrimRight_go_spec (length t) t) as [HR [k2 Hk2]]; [done|].
  split; [|split; [done|]].
  - eapply strip_space_prefix_None_prefix; [|exact HL]. by exists k2.
  - exists k1, k2. rewrite Hk1, Hk2 at 1. by rewrite (assoc_L (++)).
Qed.

(** No white-space rune ends with ")". *)
Lemma strip_space_suffix_paren s : HasSuffix s ")" = true → strip_space_suffix s = None.
Proof.
  intros Hs%HasSuffix_spec. apply strip_space_suffix_None. intros r Hr Hrs.
  assert (Forall (λ r, ¬ r `suffix_of` [")"%char] ∧ ¬ [")"%char] `suffix_of` r) space_runes)
    as Hall by (apply (bool_decide_unpack _); vm_compute; exact I).
  rewrite list.Forall_forall in Hall. destruct (Hall r Hr) as [H1 H2].
  by destruct (suffix_weak_total _ _ _ Hrs Hs); [apply H1|apply H2].
Qed.

Lemma strip_space_prefix_space x : strip_space_prefix (" "%char :: x) = Some x.
Proof. reflexivity. Qed.

(** A leading space is trimmed. *)
Lemma TrimSpace_space_cons x : TrimSpace (" "%char :: x) = TrimSpace x.
Proof. unfold TrimSpace. cbn [length TrimLeft_go]. by rewrite strip_space_prefix_space. Qed.

Lemma TrimSpace_id s :
  strip_space_prefix s = None → strip_space_suffix s = None → TrimSpace s = s.
Proof. intros HL HR. unfold TrimSpace. rewrite !TrimLeft_go_id, TrimRight_go_id; done. Qed.

Lemma TrimSpace_idem s : TrimSpace (TrimSpace s) = TrimSpace s.
Proof. destruct (TrimSpace_spec s) as (? & ? & _). by apply TrimSpace_id. Qed.

(** ** Theorems *)

(** Any fuel from [length s] on gives the same trimming. *)
Lemma TrimLeft_go_fuel fuel1 fuel2 s :
  length s ≤ fuel1 → length s ≤ fuel2 → TrimLeft_go fuel1 s = TrimLeft_go fuel2 s.
Proof.
  revert fuel2 s. induction fuel1 as [|f1 IH]; intros fuel2 s H1 H2.
  - destruct s; [|cbn in H1; lia]. rewrite !TrimLeft_go_id; [done|apply strip_space_prefix_nil..].
  - destruct (strip_space_prefix s) as [s'|] eqn:E; [|by rewrite !TrimLeft_go_id].
    destruct (strip_space_prefix_Some _ _ E) as (r & Hr & ->).
    pose proof (space_runes_not_nil r Hr). destruct r as [|b r]; [done|].
    cbn in H1, H2. rewrite length_app in H1, H2.
    destruct fuel2 as [|f2]; [lia|]. cbn [TrimLeft_go]. rewrite E. apply IH; lia.
Qed.

Lemma TrimRight_go_fuel fuel1 fuel2 s :
  length s ≤ fuel1 → length s ≤ fuel2 → TrimRight_go fuel1 s = TrimRight_go fuel2 s.
Proof.
  revert fuel2 s. induction fuel1 as [|f1 IH]; intros fuel2 s H1 H2.
  - destruct s; [|cbn in H1; lia]. rewrite !TrimRight_go_id; [done|apply strip_space_suffix_nil..].
  - destruct (strip_space_suffix s) as [s'|] eqn:E; [|by rewrite !TrimRight_go_id].
    destruct (strip_space_suffix_Some _ _ E) as (r & Hr & ->).
    pose proof (space_runes_not_nil r Hr). destruct r as [|b r]; [done|].
    rewrite length_app in H1, H2. cbn in H1, H2.
    destruct fuel2 as [|f2]; [lia|]. cbn [TrimRight_go]. rewrite E. apply IH; lia.
Qed.

(** [TrimSpace] is its two loops run with any fuel from [len(s)] on. *)
Lemma TrimSpace_fuel s fuel :
  length s ≤ fuel → TrimSpace s = TrimRight_go fuel (TrimLeft_go fuel s).
Proof.
  intros Hf. unfold TrimSpace. rewrite (TrimLeft_go_fuel fuel (length s) s) by lia.
  destruct (TrimLeft_go_spec (length s) s) as [_ [k Hk]]; [done|].
  apply TrimRight_go_fuel; [done|].
  apply (f_equal length) in Hk. rewrite length_app in Hk. lia.
Qed.

(** (C38) [strings.Index] and the slice of line 205, exactly: when the
    separator does not occur, [Index] is -1 and [s[:Index(s, sep)]]
    panics with bounds [-1] and [len(s)]; when it occurs, [Index] is the
    offset of its first occurrence, the whole separator fits there
    ([i + len(sep) <= len(s)]), and the slice is in bounds and gives the
    bytes before it. *)
Theorem Index_slice s sub :
  (Index s sub = (-1)%Z ∧ (∀ j, ¬ sub `prefix_of` drop j s) ∧
   slice_to s (Index s sub) = Err (Panic (SliceBoundsOutOfRange (-1) (Z.of_nat (length s))))) ∨
  (∃ i, Index s sub = Z.of_nat i ∧ sub `prefix_of` drop i s ∧
        (∀ j, j < i → ¬ sub `prefix_of` drop j s) ∧ i + length sub ≤ length s ∧
        slice_to s (Index s sub) = Ok (take i s)).
Proof.
  destruct (index_from s sub) as [i|] eqn:Hi.
  - right. exists i. rewrite (slice_to_Index_found _ _ _ Hi).
    destruct (index_from_Some _ _ _ Hi) as [[rest Hrest] Hfirst].
    pose proof (index_from_le _ _ _ Hi) as Hle.
    split; [unfold Index; by rewrite Hi|]. split; [by exists rest|]. split; [done|]. split; [|done].
    apply (f_equal length) in Hrest. rewrite length_drop, length_app in Hrest. lia.
  - left. rewrite (slice_to_Index_missing _ _ Hi). split; [unfold Index; by rewrite Hi|].
    split; [by apply index_from_None|done].
Qed.

