(* ===== verification/Extract.v ===== *)
(** * ArtistExtractor: [extractArtists] and [trimCountry] (src/main.go, lines 172-206)

    The body is split into lines; a line whose first byte is an ASCII
    capital is split on commas; each trimmed piece that ends with ")" is
    cut before its first " (" and appended to the result.  [trimCountry]
    slices with the result of [strings.Index] unchecked, so a piece that
    ends with ")" but has no " (" makes the program panic ([s[:-1]]).

    The model follows the two nested loops with their accumulator
    ([process_line], [process_segment]).  The abstract specification
    [accepted_segments] lists, in order, the pieces the loops hand to
    [trimCountry]; the refinement lemma [extractArtists_mapM] states
    that extraction is [trimCountry] mapped over them, stopping at the
    first panic.  The theorems of this file follow from it.
    [format_body] prints artists the way the program expects them, for
    the round trip [extractArtists_format_roundtrip]. *)

From Stdlib Require Import Ascii ZArith Lia.
From stdpp Require Import base list strings option.
From S2P Require Import Prelude GoStrings.

(** ** The model *)

(** [len(line) > 0 && line[0] >= 'A' && line[0] <= 'Z'] (line 182). *)
Definition starts_upper (line : bytes) : bool :=
  match line with
  | [] => false
  | c :: _ => (65 <=? byte_val c) && (byte_val c <=? 90)
  end.

(** [trimCountry] (lines 201-206): [i := strings.Index(s, " ("); return s[:i]]. *)
Definition trimCountry (s : bytes) : result bytes :=
  let i := Index s " (" in
  slice_to s i.

(** The body of the inner loop (lines 187-195), with the accumulator
    [artists]: trim, test the suffix, cut and append. *)
Definition process_segment (artists : list bytes) (potentialArtist : bytes) : result (list bytes) :=
  let potentialArtist := TrimSpace potentialArtist in
  if HasSuffix potentialArtist ")" then
    trimmedArtist ← trimCountry potentialArtist;
    Ok (artists ++ [trimmedArtist])
  else Ok artists.

(** The body of the outer loop (lines 180-197). *)
Definition process_line (artists : list bytes) (line : bytes) : result (list bytes) :=
  if starts_upper line then
    let potentialArtists := Split line ","%char in
    foldM process_segment artists potentialArtists
  else Ok artists.

(** [extractArtists] (lines 172-199). *)
Definition extractArtists (s : bytes) : result (list bytes) :=
  let lines := Split s "010"%char in
  foldM process_line [] lines.

(** ** The abstract specification *)

(** The pieces of one line that reach [trimCountry]. *)
Definition line_accepted (line : bytes) : list bytes :=
  if starts_upper line then filter (λ p, HasSuffix p ")" = true) (map TrimSpace (Split line ","%char))
  else [].

(** The pieces of a body that reach [trimCountry], in the order of the body. *)
Definition accepted_segments (s : bytes) : list bytes :=
  concat (map line_accepted (Split s "010"%char)).

(** ** Formatted bodies

    The bodies the program is written for list artists as
    "Name (Country)", separated by ", ", one group of artists per line. *)
Definition format_artist (a : bytes * bytes) : bytes := a.1 ++ " (" ++ a.2 ++ ")".

Definition format_line (artists : list (bytes * bytes)) : bytes :=
  Join (map format_artist artists) [","%char; " "%char].

Definition format_body (ls : list (list (bytes * bytes))) : bytes :=
  Join (map format_line ls) ["010"%char].

(** A name that starts with an ASCII capital and holds no " (", and a
    name and a country free of commas and line breaks. *)
Definition artist_ok (a : bytes * bytes) : bool :=
  starts_upper a.1 && bool_decide (index_from a.1 " (" = None) &&
  bool_decide (","%char ∉ a.1 ++ a.2) && bool_decide ("010"%char ∉ a.1 ++ a.2).

(** ** From the loops to the specification *)

Section Refinement.

Definition segment_result (p : bytes) : result (list bytes) :=
  if HasSuffix (TrimSpace p) ")" then t ← trimCountry (TrimSpace p); Ok [t] else Ok [].

Lemma process_segment_eq artists p :
  process_segment artists p = segment_result p ≫= λ ys, Ok (artists ++ ys).
Proof.
  unfold process_segment, segment_result. destruct (HasSuffix _ _); cbn; [|by rewrite app_nil_r].
  by destruct (trimCountry _).
Qed.

Lemma segments_result l :
  mapM segment_result l ≫= (λ yss, Ok (concat yss))
  = mapM trimCountry (filter (λ p, HasSuffix p ")" = true) (map TrimSpace l)).
Proof.
  induction l as [|p l IH]; [done|]. cbn [map mapM]. rewrite filter_cons.
  destruct (HasSuffix (TrimSpace p) ")") eqn:Hs.
  - rewrite decide_True by done.
    assert (segment_result p = t ← trimCountry (TrimSpace p); Ok [t]) as ->
      by (unfold segment_result; by rewrite Hs).
    cbn [mapM]. rewrite <- IH.
    destruct (trimCountry (TrimSpace p)), (mapM segment_result l); done.
  - rewrite decide_False by done.
    assert (segment_result p = Ok []) as -> by (unfold segment_result; by rewrite Hs).
    rewrite <- IH. by destruct (mapM segment_result l).
Qed.

Lemma process_line_eq artists line :
  process_line artists line
  = mapM trimCountry (line_accepted line) ≫= λ ys, Ok (artists ++ ys).
Proof.
  unfold process_line, line_accepted. destruct (starts_upper line); [|cbn; by rewrite app_nil_r].
  rewrite (foldM_ext _ _ _ _ process_segment_eq), foldM_append_mapM, <- segments_result.
  by destruct (mapM segment_result _).
Qed.

(** The two loops compose to [mapM trimCountry] over the accepted pieces. *)
Lemma extractArtists_mapM s : extractArtists s = mapM trimCountry (accepted_segments s).
Proof.
  unfold extractArtists, accepted_segments.
  rewrite (foldM_ext _ _ _ _ process_line_eq), foldM_append_mapM, mapM_concat, mapM_map.
  cbn. destruct (mapM _ _); done.
Qed.

Lemma trimCountry_Ok s name :
  trimCountry s = Ok name ↔ ∃ i, index_from s " (" = Some i ∧ name = take i s.
Proof.
  unfold trimCountry. destruct (index_from s " (") as [i|] eqn:E.
  - rewrite (slice_to_Index_found _ _ _ E). split; [intros [= <-]; eauto|].
    by intros (? & [= <-] & ->).
  - rewrite (slice_to_Index_missing _ _ E). split; [done|]. by intros (? & ? & _).
Qed.

Lemma trimCountry_Err s e :
  trimCountry s = Err e ↔
  index_from s " (" = None ∧ e = Panic (SliceBoundsOutOfRange (-1) (Z.of_nat (length s))).
Proof.
  unfold trimCountry. destruct (index_from s " (") as [i|] eqn:E.
  - rewrite (slice_to_Index_found _ _ _ E). split; [done|]. by intros [? _].
  - rewrite (slice_to_Index_missing _ _ E). split; [by intros [= <-]|]. by intros [_ ->].
Qed.

(** Splitting the body at a newline splits the accepted pieces. *)
Lemma accepted_segments_app s1 s2 :
  accepted_segments (s1 ++ "010"%char :: s2) = accepted_segments s1 ++ accepted_segments s2.
Proof. unfold accepted_segments. by rewrite Split_app_sep, map_app, concat_app. Qed.

Lemma accepted_segments_line l :
  "010"%char ∉ l → accepted_segments l = line_accepted l.
Proof. intros Hl. unfold accepted_segments. rewrite Split_no_sep by done. cbn. by rewrite app_nil_r. Qed.

(** An occurrence inside a prefix is an occurrence in the whole string. *)
Lemma prefix_drop_take (u s : bytes) i j :
  u ≠ [] → u `prefix_of` drop j (take i s) → j < i ∧ u `prefix_of` drop j s.
Proof.
  intros Hu Hp. destruct (decide (j < i)) as [Hj|Hj].
  - split; [done|]. etrans; [exact Hp|]. exists (drop i s). by rewrite drop_take_drop by lia.
  - rewrite drop_ge in Hp by (rewrite length_take; lia).
    destruct u; [done|]. by apply prefix_nil_not in Hp.
Qed.

(** An accepted piece is a trimmed comma-separated piece of a
    capitalised line, and ends with ")". *)
Lemma accepted_segments_elem s seg :
  seg ∈ accepted_segments s →
  ∃ line p, line ∈ Split s "010"%char ∧ starts_upper line = true ∧ p ∈ Split line ","%char ∧
    seg = TrimSpace p ∧ HasSuffix seg ")" = true.
Proof.
  unfold accepted_segments. intros Hseg. apply list_elem_of_In, in_concat in Hseg.
  destruct Hseg as (l & Hl & Hseg). apply in_map_iff in Hl as (line & <- & Hline).
  unfold line_accepted in Hseg. destruct (starts_upper line) eqn:Hup; [|done].
  apply list_elem_of_In, list_elem_of_filter in Hseg as [Hsuf Hseg].
  apply list_elem_of_fmap in Hseg as (p & -> & Hp).
  exists line, p. repeat split; try done. by apply list_elem_of_In.
Qed.

(** An accepted piece holds no line break and no comma. *)
Lemma accepted_segments_no_sep s seg :
  seg ∈ accepted_segments s → ("010"%char ∉ seg) ∧ (","%char ∉ seg).
Proof.
  intros (line & p & Hline & _ & Hp & -> & _)%accepted_segments_elem.
  destruct (TrimSpace_spec p) as (_ & _ & pre & post & Hpp).
  assert (∀ x, x ∈ TrimSpace p → x ∈ p) as Hsub.
  { intros x Hx. rewrite Hpp. apply elem_of_app. right. apply elem_of_app. by left. }
  split; intros Hc.
  - apply (Split_pieces_no_sep _ _ _ Hline). apply (Split_pieces_sub _ _ _ Hp). by apply Hsub.
  - apply (Split_pieces_no_sep _ _ _ Hp). by apply Hsub.
Qed.

(** The shape of an extracted name (the proof of C6). *)
Lemma extracted_name_shape s names name :
  extractArtists s = Ok names → name ∈ names →
  ∃ seg rest, seg ∈ accepted_segments s ∧ seg = name ++ " (" ++ rest ∧
    name ≠ [] ∧ strip_space_prefix name = None ∧
    ∀ j, ¬ (" (" : bytes) `prefix_of` drop j name.
Proof.
  intros Hok Hname. rewrite extractArtists_mapM, mapM_Ok_iff in Hok.
  destruct (Forall2_elem_r _ _ _ _ Hok Hname) as (seg & Hseg & (i & Hi & ->)%trimCountry_Ok).
  destruct (index_from_Some _ _ _ Hi) as [[rest Hrest] Hfirst].
  (* the piece is trimmed: it has no leading white space *)
  assert (strip_space_prefix seg = None) as Htrim.
  { apply accepted_segments_elem in Hseg as (line & p & _ & _ & _ & -> & _).
    apply TrimSpace_spec. }
  exists seg, rest. split; [done|]. split.
  { rewrite <- (take_drop i seg) at 1. by rewrite Hrest. }
  split; [|split].
  - intros Hnil. destruct i.
    + apply strip_space_prefix_None with (r := [" "%char]) in Htrim; [|apply space_rune_space].
      apply Htrim. exists (["("%char] ++ rest). by rewrite drop_0 in Hrest.
    + pose proof (index_from_le _ _ _ Hi). apply (f_equal length) in Hnil.
      rewrite length_take in Hnil. cbn in Hnil.
      assert (length seg ≠ 0) as Hlen by lia.
      destruct seg; [done|]. cbn in Hnil. lia.
  - eapply strip_space_prefix_None_prefix; [apply prefix_take|done].
  - intros j Hj. apply prefix_drop_take in Hj as [Hji Hj]; [|done].
    by apply (Hfirst j).
Qed.

(** A panic on the first piece of a capitalised line (the proof of C7). *)
Lemma extract_line_panics s ls1 l ls2 p ps :
  Split s "010"%char = ls1 ++ l :: ls2 →
  Forall (λ q, is_Some (index_from q " (")) (concat (map line_accepted ls1)) →
  starts_upper l = true → Split l ","%char = p :: ps →
  HasSuffix (TrimSpace p) ")" = true → index_from (TrimSpace p) " (" = None →
  extractArtists s = Err (Panic (SliceBoundsOutOfRange (-1) (Z.of_nat (length (TrimSpace p))))).
Proof.
  intros Hs Hbefore Hup Hsplit Hsuf Hidx.
  assert (line_accepted l = TrimSpace p ::
            filter (λ q, HasSuffix q ")" = true) (map TrimSpace ps)) as Hl.
  { unfold line_accepted. rewrite Hup, Hsplit. cbn [map]. by rewrite filter_cons, decide_True. }
  rewrite extractArtists_mapM. unfold accepted_segments.
  rewrite Hs, map_app, concat_app. cbn [map concat]. rewrite Hl.
  apply mapM_Err_iff. eexists _, (TrimSpace p), _. split; [reflexivity|].
  split; [|by apply trimCountry_Err].
  revert Hbefore. apply Forall_impl. intros q [i Hi]. exists (take i q). apply trimCountry_Ok. eauto.
Qed.

(** No white-space rune starts with an ASCII capital. *)
Lemma starts_upper_no_space s : starts_upper s = true → strip_space_prefix s = None.
Proof.
  intros Hup. apply strip_space_prefix_None. intros r Hr [k ->].
  assert (forallb (λ r, match r with [] => false | h :: _ => negb (starts_upper [h]) end)
            space_runes = true) as Hall by reflexivity.
  apply forallb_forall with (x := r) in Hall; [|by apply list_elem_of_In].
  destruct r as [|h r]; [done|]. cbn [app starts_upper] in Hup, Hall.
  by rewrite Hup in Hall.
Qed.

Lemma starts_upper_app s t : starts_upper s = true → starts_upper (s ++ t) = true.
Proof. by destruct s. Qed.

(** What the loops see of one formatted artist. *)
Lemma format_artist_facts a : artist_ok a = true →
  starts_upper (format_artist a) = true ∧ TrimSpace (format_artist a) = format_artist a ∧
  HasSuffix (format_artist a) ")" = true ∧ trimCountry (format_artist a) = Ok a.1 ∧
  (","%char ∉ format_artist a) ∧ ("010"%char ∉ format_artist a).
Proof.
  destruct a as [n c]. unfold artist_ok, format_artist. cbn [fst snd].
  rewrite !andb_true_iff, !bool_decide_eq_true. intros [[[Hup Hidx] Hcomma] Hnl].
  rewrite elem_of_app in Hcomma, Hnl.
  assert (HasSuffix (n ++ " (" ++ c ++ ")") ")" = true) as Hsuf.
  { apply HasSuffix_spec. exists (n ++ " (" ++ c). by rewrite <- !app_assoc. }
  assert (starts_upper (n ++ " (" ++ c ++ ")") = true) as Hup' by (by apply starts_upper_app).
  split; [done|]. split.
  { apply TrimSpace_id; [by apply starts_upper_no_space|by apply strip_space_suffix_paren]. }
  split; [done|]. split.
  { apply trimCountry_Ok. exists (length n).
    split; [by apply index_from_paren|by rewrite take_app_length]. }
  split; rewrite !elem_of_app; intros [Hx|[Hx|[Hx|Hx]]];
    try (apply list_elem_of_In in Hx; cbn in Hx; intuition discriminate); naive_solver.
Qed.

Lemma mapM_trimCountry_format l :
  Forall (λ a, artist_ok a = true) l → mapM trimCountry (map format_artist l) = Ok (map fst l).
Proof.
  induction 1 as [|a l Ha _ IH]; [done|]. cbn [map mapM].
  destruct (format_artist_facts a Ha) as (_ & _ & _ & -> & _). cbn. by rewrite IH.
Qed.

Lemma accepted_pieces l :
  Forall (λ a, artist_ok a = true) l →
  filter (λ p, HasSuffix p ")" = true)
    (map TrimSpace (map (λ v, [" "%char] ++ v) (map format_artist l))) = map format_artist l.
Proof.
  induction 1 as [|a l Ha _ IH]; [done|]. cbn [map].
  destruct (format_artist_facts a Ha) as (_ & Ht & Hs & _).
  change ([" "%char] ++ format_artist a) with (" "%char :: format_artist a).
  rewrite TrimSpace_space_cons, Ht, filter_cons_True by done. by rewrite IH.
Qed.

(** A formatted line hands its artists to [trimCountry], in order. *)
Lemma line_accepted_format l :
  Forall (λ a, artist_ok a = true) l → line_accepted (format_line l) = map format_artist l.
Proof.
  intros Hl. destruct Hl as [|a l Ha Hl]; [done|].
  destruct (format_artist_facts a Ha) as (Hup & Ht & Hs & _ & Hc & _).
  unfold line_accepted, format_line. cbn [map]. rewrite Join_cons_sep.
  assert (starts_upper (Join (format_artist a :: map (λ v, [" "%char] ++ v) (map format_artist l))
            [","%char]) = true) as ->.
  { destruct (map _ (map _ l)); [done|]. by apply starts_upper_app. }
  rewrite Split_Join; [|done|].
  - cbn [map]. rewrite Ht, filter_cons_True by done. f_equal. by apply accepted_pieces.
  - intros v Hv. apply list_elem_of_In in Hv. destruct Hv as [<-|Hv]; [done|].
    apply in_map_iff in Hv as (w & <- & Hw). apply in_map_iff in Hw as (b & <- & Hb).
    apply (proj1 (Forall_forall _ _) Hl) in Hb.
    destruct (format_artist_facts b Hb) as (_ & _ & _ & _ & Hcb & _).
    intros [Hx|Hx]%elem_of_cons; [discriminate|done].
Qed.

Lemma accepted_format_body ls :
  Forall (Forall (λ a, artist_ok a = true)) ls →
  accepted_segments (format_body ls) = concat (map (map format_artist) ls).
Proof.
  intros Hls. destruct ls as [|l ls]; [reflexivity|]. unfold accepted_segments, format_body.
  rewrite Split_Join; [|done|].
  - rewrite map_map. f_equal. apply map_ext_in. intros l' Hl'.
    apply line_accepted_format. by apply (proj1 (Forall_forall _ _) Hls).
  - intros w Hw. apply list_elem_of_In, in_map_iff in Hw as (l' & <- & Hl').
    apply (proj1 (Forall_forall _ _) Hls) in Hl'. unfold format_line.
    apply Join_not_elem; [apply (bool_decide_unpack _); vm_compute; exact I|].
    intros v Hv%list_elem_of_In. apply in_map_iff in Hv as (b & <- & Hb).
    apply (proj1 (Forall_forall _ _) Hl') in Hb. apply (format_artist_facts b Hb).
Qed.

End Refinement.

(** ** Theorems *)

(** (C1) Extraction is [trimCountry] applied, in order, to the accepted
    pieces of the body, stopping at the first panic. *)
Theorem extractArtists_refines s :
  extractArtists s = mapM trimCountry (accepted_segments s).
Proof. apply extractArtists_mapM. Qed.

(** (C2) A successful extraction returns one name per accepted piece, in
    the order of the body and with repetitions kept: the bytes of the
    piece before its first " (". *)
Theorem extractArtists_Ok_iff s names :
  extractArtists s = Ok names ↔
  Forall2 (λ seg name, ∃ i, index_from seg " (" = Some i ∧ name = take i seg)
          (accepted_segments s) names.
Proof.
  rewrite extractArtists_mapM, mapM_Ok_iff.
  split; apply Forall2_impl; intros ??; apply trimCountry_Ok.
Qed.

(** (C3) Extraction succeeds exactly when every accepted piece contains
    " ("; otherwise it panics on the first piece that does not, with the
    slice [s[:-1]] of [trimCountry]. *)
Theorem extractArtists_Err_iff s e :
  extractArtists s = Err e ↔
  ∃ before seg after,
    accepted_segments s = before ++ seg :: after ∧
    Forall (λ p, is_Some (index_from p " (")) before ∧
    index_from seg " (" = None ∧
    e = Panic (SliceBoundsOutOfRange (-1) (Z.of_nat (length seg))).
Proof.
  rewrite extractArtists_mapM, mapM_Err_iff.
  setoid_rewrite trimCountry_Err.
  split; intros (b & seg & a & Hs & Hb & Hseg); exists b, seg, a;
    (split; [done|]); (split; [|done]); revert Hb; apply Forall_impl; intros p Hp.
  - destruct Hp as [y Hy%trimCountry_Ok]. destruct Hy as (i & Hi & _). by exists i.
  - destruct Hp as [i Hi]. exists (take i p). apply trimCountry_Ok. eauto.
Qed.

(** (C4) Bodies are processed line by line: extracting from two bodies
    joined by a newline is extracting from each, in order. *)
Theorem extractArtists_app_lines s1 s2 :
  extractArtists (s1 ++ "010"%char :: s2) =
  (n1 ← extractArtists s1; n2 ← extractArtists s2; Ok (n1 ++ n2)).
Proof. rewrite !extractArtists_mapM, accepted_segments_app. apply mapM_app. Qed.

(** (C5) A line that does not start with an ASCII capital is ignored,
    whatever it contains. *)
Theorem extractArtists_skip_line s1 l s2 :
  starts_upper l = false → "010"%char ∉ l →
  extractArtists (s1 ++ "010"%char :: l ++ "010"%char :: s2) =
  extractArtists (s1 ++ "010"%char :: s2).
Proof.
  intros Hup Hl. rewrite !extractArtists_mapM, !accepted_segments_app.
  rewrite (accepted_segments_line l Hl). unfold line_accepted. by rewrite Hup.
Qed.

(** (C6) Every extracted name is the part of an accepted piece before its
    first " (": it is not empty, starts with no white space, and contains
    no " (". *)
Theorem extractArtists_names s names name :
  extractArtists s = Ok names → name ∈ names →
  ∃ seg rest, seg ∈ accepted_segments s ∧ seg = name ++ " (" ++ rest ∧
    name ≠ [] ∧ strip_space_prefix name = None ∧
    ∀ j, ¬ (" (" : bytes) `prefix_of` drop j name.
Proof. apply extracted_name_shape. Qed.

(** The body made of the given lines, joined with "\n". *)
Definition lines (ls : list string) : bytes := Join (strs ls) ["010"%char].

(** (C7) A piece that ends with ")" but has no " (" is not skipped, as
    the specification requires: when it is the first piece of a
    capitalised line and every piece accepted before it has a " (", the
    program panics with [s[:-1]] (line 205). *)
Theorem extractArtists_missing_separator_panics s ls1 l ls2 p ps :
  Split s "010"%char = ls1 ++ l :: ls2 →
  Forall (λ q, is_Some (index_from q " (")) (concat (map line_accepted ls1)) →
  starts_upper l = true → Split l ","%char = p :: ps →
  HasSuffix (TrimSpace p) ")" = true → index_from (TrimSpace p) " (" = None →
  extractArtists s = Err (Panic (SliceBoundsOutOfRange (-1) (Z.of_nat (length (TrimSpace p))))).
Proof. apply extract_line_panics. Qed.

(** (C9) Round trip: a body whose lines list artists as "Name (Country)"
    separated by ", " is extracted to exactly the names, in order, when
    the names start with an ASCII capital and hold no " (", and names and
    countries hold no comma or line break.  White space before " (" is
    part of the name: it is kept, not trimmed. *)
Theorem extractArtists_format_roundtrip ls :
  Forall (Forall (λ a, artist_ok a = true)) ls →
  extractArtists (format_body ls) = Ok (concat (map (map fst) ls)).
Proof.
  intros Hls. rewrite extractArtists_mapM, accepted_format_body by done.
  rewrite <- !concat_map. apply mapM_trimCountry_format. by apply Forall_concat.
Qed.

(** (C10) Extraction is not idempotent on its output: a name may itself
    end with ")" (as "A(b)" from "A(b) (c)"), and then, when it starts
    with a capital, extracting again from it panics: a name never
    contains " (". *)
Theorem extractArtists_output_reextract_panics s names name :
  extractArtists s = Ok names → name ∈ names →
  starts_upper name = true → HasSuffix name ")" = true →
  extractArtists name = Err (Panic (SliceBoundsOutOfRange (-1) (Z.of_nat (length name)))).
Proof.
  intros Hok Hname Hup Hsuf.
  destruct (extracted_name_shape _ _ _ Hok Hname) as (seg & rest & Hseg & -> & _ & Hpre & Hno).
  destruct (accepted_segments_no_sep _ _ Hseg) as [Hnl Hcomma].
  assert (TrimSpace name = name) as Ht
    by (apply TrimSpace_id; [done|by apply strip_space_suffix_paren]).
  replace (length name) with (length (TrimSpace name)) by (by rewrite Ht).
  apply (extract_line_panics _ [] name [] name []); [| |done| |by rewrite Ht|].
  - apply Split_no_sep. intros Hc. apply Hnl, elem_of_app. by left.
  - constructor.
  - apply Split_no_sep. intros Hc. apply Hcomma, elem_of_app. by left.
  - rewrite Ht. by apply index_from_absent.
Qed.

(** Witnesses *)

(** Literal artist lists, for concrete runs. *)
Definition artists_of (ls : list (list (string * string))) : list (list (bytes * bytes)) :=
  map (map (λ '(n, c), (String.list_ascii_of_string n, String.list_ascii_of_string c))) ls.

Lemma extractArtists_format_roundtrip_witness :
  format_body (artists_of [[("Al ", "x"); ("Bo", "y")]; []; [("Cy", "z")]]) =
    "Al  (x), Bo (y)" ++ "010"%char :: "010"%char :: "Cy (z)" ∧
  extractArtists (format_body (artists_of [[("Al ", "x"); ("Bo", "y")]; []; [("Cy", "z")]])) =
    Ok (strs ["Al "; "Bo"; "Cy"]).
Proof.
  split; [reflexivity|].
  apply (extractArtists_format_roundtrip (artists_of [[("Al ", "x"); ("Bo", "y")]; []; [("Cy", "z")]])).
  vm_compute. repeat constructor.
Defined.

Lemma extractArtists_output_reextract_panics_witness :
  extractArtists "A(b) (c)" = Ok (strs ["A(b)"]) ∧
  extractArtists "A(b)" = Err (Panic (SliceBoundsOutOfRange (-1) 4)).
Proof.
  split; [vm_compute; reflexivity|].
  apply (extractArtists_output_reextract_panics "A(b) (c)" (strs ["A(b)"]) ("A(b)" : bytes));
    [vm_compute; reflexivity|by apply list_elem_of_singleton|reflexivity|reflexivity].
Defined.

Lemma extractArtists_missing_separator_panics_witness :
  extractArtists "Foo(Live)" = Err (Panic (SliceBoundsOutOfRange (-1) 9)).
Proof.
  apply (extractArtists_missing_separator_panics _ [] "Foo(Live)" [] "Foo(Live)" []);
    try (vm_compute; reflexivity). constructor.
Defined.

Lemma extractArtists_skip_line_witness :
  extractArtists ("Alice (US)" ++ "010"%char :: ("notes: (x)" : bytes) ++ "010"%char :: "Bob (UK)")
  = extractArtists ("Alice (US)" ++ "010"%char :: "Bob (UK)").
Proof.
  apply extractArtists_skip_line; [reflexivity|].
  apply (bool_decide_eq_true_1 _). reflexivity.
Defined.

Lemma extractArtists_names_witness :
  ∃ seg rest, seg ∈ accepted_segments "Alice (US), Bob (UK)" ∧
    seg = ("Alice" : bytes) ++ " (" ++ rest ∧ ("Alice" : bytes) ≠ [] ∧
    strip_space_prefix "Alice" = None ∧ ∀ j, ¬ (" (" : bytes) `prefix_of` drop j ("Alice" : bytes).
Proof.
  apply (extractArtists_names "Alice (US), Bob (UK)" (strs ["Alice"; "Bob"])).
  - vm_compute. reflexivity.
  - left.
Defined.

