(* ===== verification/Gmail.v ===== *)
(** * The Gmail API surface that src/main.go uses

    The program talks to Gmail through [google.golang.org/api/gmail/v1]:
    [srv.Users.Labels.List(user).Do()], [srv.Users.Messages.List(user)
    .LabelIds(l).Do()] and [srv.Users.Messages.Get(user, id).Do()] (the
    body decoder, [base64.URLEncoding.DecodeString], is Base64.v).  This
    file holds

    - the records of the API's Go structs, restricted to the fields the
      program reads ([Message.Id], [Message.LabelIds], [Message.Payload],
      [MessagePart.Headers], [MessagePart.Body], [MessagePartBody.Data],
      [Label.Name], [ListMessagesResponse.Messages] and [NextPageToken]);
      the pointers the program dereferences without a nil check
      ([msg.Payload], [msg.Payload.Body]) are options;
    - the interface [GmailService]: the three calls, each returning the
      response or the Go [error] (modelled by its message);
    - [Mailbox], a concrete service: a snapshot of a mailbox, with its
      listing by label in pages and its lookup by id, used for concrete
      runs of the program.

    The service is a library the program calls: what it does is taken
    from its documentation. *)

From Stdlib Require Import Ascii ZArith Lia.
From stdpp Require Import base list strings option.
From S2P Require Import Prelude.

(** ** The API's structs *)

Record MessagePartHeader := { header_Name : bytes; header_Value : bytes }.

Record MessagePartBody := { body_Data : bytes }.

Record MessagePart := {
  part_Headers : list MessagePartHeader;
  part_Body : option MessagePartBody      (** [*MessagePartBody], may be nil *)
}.

Record Message := {
  msg_Id : bytes;
  msg_LabelIds : list bytes;
  msg_Payload : option MessagePart        (** [*MessagePart], may be nil *)
}.

Record Label := { label_Name : bytes }.

Record ListLabelsResponse := { llr_Labels : list Label }.

(** An entry of a listing carries the message id only. *)
Record MessageRef := { ref_Id : bytes }.

Record ListMessagesResponse := {
  lmr_Messages : list MessageRef;
  lmr_NextPageToken : bytes               (** "" on the last page *)
}.

(** A call returns its response or fails with a Go [error]. *)
Abbreviation call A := (A + bytes)%type.

(** ** Interfaces of the collaborators *)

(** The three Gmail calls, on a service handle of type [srv].  The scope
    [gmail.GmailReadonlyScope] makes them read-only: the handle is a
    snapshot and a call does not change it. *)
Class GmailService (srv : Type) := {
  Labels_List : srv → bytes → call ListLabelsResponse;
  Messages_List : srv → bytes → bytes → call ListMessagesResponse;
  Messages_Get : srv → bytes → bytes → call Message
}.

(** ** A concrete service: a snapshot of a mailbox *)

Record Mailbox := {
  mb_labels : list Label;
  mb_messages : list Message;     (** newest first, the order of the listing *)
  mb_page_size : nat;             (** [maxResults]: 100 by default *)
  mb_failing : list bytes         (** ids whose fetch fails (network, quota) *)
}.

Definition has_label (l : bytes) (m : Message) : bool := bool_decide (l ∈ msg_LabelIds m).

Definition mailbox_list (mb : Mailbox) (label : bytes) : ListMessagesResponse :=
  let ms := filter (λ m, has_label label m = true) (mb_messages mb) in
  {| lmr_Messages := take (mb_page_size mb) ((λ m, {| ref_Id := msg_Id m |}) <$> ms);
     lmr_NextPageToken := if mb_page_size mb <? length ms then "page2" else [] |}.

Definition mailbox_get (mb : Mailbox) (id : bytes) : call Message :=
  if bool_decide (id ∈ mb_failing mb) then inr ("connection reset by peer" : bytes)
  else match List.find (λ m, bool_decide (msg_Id m = id)) (mb_messages mb) with
       | Some m => inl m
       | None => inr ("googleapi: Error 404: Requested entity was not found., notFound" : bytes)
       end.

#[export] Instance mailbox_service : GmailService Mailbox := {
  Labels_List mb _ := inl {| llr_Labels := mb_labels mb |};
  Messages_List mb _ label := inl (mailbox_list mb label);
  Messages_Get mb _ id := mailbox_get mb id
}.
