(* ===== verification/Base64.v ===== *)
(** * [base64.URLEncoding.DecodeString], the decoder of message bodies

    Gmail returns a body base64url-encoded; line 148 decodes it with
    [base64.URLEncoding.DecodeString] and ends the program on an error.
    This file models the Go library's decoder (encoding/base64, padded
    URL alphabet, not strict) as a byte-by-byte state machine that follows
    [decodeQuantum]: symbols are gathered four at a time, "\r" and "\n" are
    skipped anywhere, "=" may end the input after two or three symbols
    ("==" after two), and the first error is a [CorruptInputError] whose
    offset is computed as the library computes it.  Four symbols give
    three bytes through [val := s0<<18 | s1<<12 | s2<<6 | s3]; the fast
    paths of [Decode] decode the same quanta.

    [EncodeToString] (the library's encoder, which Gmail uses on its side)
    is modelled too, for the round trip [DecodeString_EncodeToString]. *)

From Stdlib Require Import Ascii ZArith Zbitwise Lia.
From stdpp Require Import base list strings option pretty.
From S2P Require Import Prelude Gmail.

Local Open Scope Z_scope.

(** ** The alphabet *)

Definition encodeURL : bytes := "ABCDEFGHIJKLMNOPQRSTUVWXYZabcdefghijklmnopqrstuvwxyz0123456789-_".

Definition padChar : ascii := "=".

Definition byte_of (c : ascii) : Z := Z.of_N (N_of_ascii c).
Definition char_of (b : Z) : ascii := ascii_of_N (Z.to_N b).

(** [decodeMap[c]]: the position of [c] in the alphabet, or none (0xFF). *)
Fixpoint index_in (c : ascii) (alphabet : bytes) : option Z :=
  match alphabet with
  | [] => None
  | a :: alphabet' => if decide (a = c) then Some 0 else Z.succ <$> index_in c alphabet'
  end.

Definition decodeMap (c : ascii) : option Z := index_in c encodeURL.

(** [enc.encode[v]]. *)
Definition encodeChar (v : Z) : ascii := nth (Z.to_nat v) encodeURL "A"%char.

Definition is_newline (c : ascii) : bool := bool_decide (c = "010"%char ∨ c = "013"%char).

(** ** Quanta *)

(** [uint(dbuf[0])<<18 | uint(dbuf[1])<<12 | uint(dbuf[2])<<6 | uint(dbuf[3])],
    the missing symbols of a padded quantum being 0. *)
Definition quantum_val (vals : list Z) : Z :=
  let v i := nth i vals 0 in
  Z.lor (Z.lor (Z.lor (Z.shiftl (v 0%nat) 18) (Z.shiftl (v 1%nat) 12)) (Z.shiftl (v 2%nat) 6)) (v 3%nat).

(** The [dlen - 1] bytes of a quantum of [dlen] symbols:
    [byte(val>>16)], [byte(val>>8)], [byte(val)]. *)
Definition quantum_bytes (vals : list Z) : bytes :=
  let val := quantum_val vals in
  take (length vals - 1)
    [char_of (Z.land (Z.shiftr val 16) 255); char_of (Z.land (Z.shiftr val 8) 255);
     char_of (Z.land val 255)].

(** ** The decoder *)

(** [CorruptInputError(off).Error()]. *)
Definition corrupt (off : nat) : bytes := "illegal base64 data at input byte " ++ pretty off.

Inductive dstate :=
| DQuantum (vals : list Z)    (** inside a quantum: the symbols read so far, 0 to 3 *)
| DPad2 (vals : list Z)       (** two symbols and "=": a second "=" must follow *)
| DTail (vals : list Z).      (** padding read: only newlines may follow *)

(** [total] is [len(src)], [si] the offset of the next byte, [out] the
    bytes decoded so far. *)
Fixpoint decode_from (total si : nat) (st : dstate) (out : bytes) (src : bytes) : call bytes :=
  match src with
  | [] =>
      match st with
      | DQuantum [] => inl out
      | DQuantum vals => inr (corrupt (total - length vals))   (** [CorruptInputError(si - j)] *)
      | DPad2 _ => inr (corrupt total)                          (** not enough padding *)
      | DTail vals => inl (out ++ quantum_bytes vals)
      end
  | c :: src' =>
      match st with
      | DQuantum vals =>
          match decodeMap c with
          | Some v =>
              if decide (length vals = 3%nat)
              then decode_from total (S si) (DQuantum []) (out ++ quantum_bytes (vals ++ [v])) src'
              else decode_from total (S si) (DQuantum (vals ++ [v])) out src'
          | None =>
              if is_newline c then decode_from total (S si) st out src'
              else if decide (c = padChar) then
                match length vals with
                | 0%nat | 1%nat => inr (corrupt si)                 (** incorrect padding *)
                | 2%nat => decode_from total (S si) (DPad2 vals) out src'
                | _ => decode_from total (S si) (DTail vals) out src'
                end
              else inr (corrupt si)                               (** not in the alphabet *)
          end
      | DPad2 vals =>
          if is_newline c then decode_from total (S si) st out src'
          else if decide (c = padChar) then decode_from total (S si) (DTail vals) out src'
          else inr (corrupt (si - 1))                             (** [CorruptInputError(si - 1)] *)
      | DTail vals =>
          if is_newline c then decode_from total (S si) st out src'
          else inr (corrupt si)                                   (** trailing garbage *)
      end
  end.

(** [enc.DecodedLen(n)] for a padded encoding: [n / 4 * 3]. *)
Definition DecodedLen (n : nat) : nat := (n / 4 * 3)%nat.

Definition DecodeString (s : bytes) : call bytes := decode_from (length s) 0 (DQuantum []) [] s.

(** ** The encoder *)

Definition encode_quantum (b0 b1 b2 : ascii) : bytes :=
  let val := Z.lor (Z.lor (Z.shiftl (byte_of b0) 16) (Z.shiftl (byte_of b1) 8)) (byte_of b2) in
  [encodeChar (Z.land (Z.shiftr val 18) 63); encodeChar (Z.land (Z.shiftr val 12) 63);
   encodeChar (Z.land (Z.shiftr val 6) 63); encodeChar (Z.land val 63)].

Fixpoint EncodeToString (src : bytes) : bytes :=
  match src with
  | b0 :: b1 :: b2 :: src' => encode_quantum b0 b1 b2 ++ EncodeToString src'
  | [b0; b1] => take 3 (encode_quantum b0 b1 "000"%char) ++ [padChar]
  | [b0] => take 2 (encode_quantum b0 "000"%char "000"%char) ++ [padChar; padChar]
  | [] => []
  end.

(** ** From the bit operations to arithmetic *)

Lemma byte_of_range c : 0 ≤ byte_of c < 256.
Proof. unfold byte_of. pose proof (N_ascii_bounded c). lia. Qed.

Lemma char_of_byte_of c : char_of (byte_of c) = c.
Proof. unfold char_of, byte_of. by rewrite N2Z.id, ascii_N_embedding. Qed.

(** [x << n | y] is [x * 2^n + y] when [y] fits in the [n] low bits. *)
Lemma lor_low x y n : 0 ≤ n → 0 ≤ y < 2 ^ n → Z.lor (x * 2 ^ n) y = x * 2 ^ n + y.
Proof.
  intros Hn Hy.
  assert (Z.land (x * 2 ^ n) y = 0) as Hl.
  { apply Z.bits_inj'. intros i Hi. rewrite Z.land_spec, Z.bits_0.
    destruct (Z.lt_ge_cases i n).
    - by rewrite Z.mul_pow2_bits_low.
    - rewrite <- (Z.mod_small y (2 ^ n)) by lia.
      rewrite Z.mod_pow2_bits_high by lia. apply andb_false_r. }
  pose proof (Z.add_lor_land (x * 2 ^ n) y). lia.
Qed.

Lemma land_ones_mod x n : 0 ≤ n → Z.land x (2 ^ n - 1) = x mod 2 ^ n.
Proof. intros Hn. rewrite <- Z.land_ones by done. f_equal. by rewrite Z.ones_equiv. Qed.

(** The decoder's [val] is the base-64 number of the four symbols. *)
Lemma quantum_val_arith v0 v1 v2 v3 :
  0 ≤ v0 < 64 → 0 ≤ v1 < 64 → 0 ≤ v2 < 64 → 0 ≤ v3 < 64 →
  quantum_val [v0; v1; v2; v3] = v0 * 2 ^ 18 + v1 * 2 ^ 12 + v2 * 2 ^ 6 + v3.
Proof.
  intros H0 H1 H2 H3. unfold quantum_val. cbn [nth].
  rewrite !Z.shiftl_mul_pow2 by lia.
  rewrite lor_low by (cbn; lia).
  replace (v0 * 2 ^ 18 + v1 * 2 ^ 12) with ((v0 * 2 ^ 6 + v1) * 2 ^ 12) by ring.
  rewrite lor_low by (cbn; lia).
  replace ((v0 * 2 ^ 6 + v1) * 2 ^ 12 + v2 * 2 ^ 6)
    with ((v0 * 2 ^ 12 + v1 * 2 ^ 6 + v2) * 2 ^ 6) by ring.
  rewrite lor_low by (cbn; lia). ring.
Qed.

(** The encoder's [val] is the base-256 number of the three bytes. *)
Lemma encode_val_arith b0 b1 b2 :
  Z.lor (Z.lor (Z.shiftl (byte_of b0) 16) (Z.shiftl (byte_of b1) 8)) (byte_of b2)
  = byte_of b0 * 2 ^ 16 + byte_of b1 * 2 ^ 8 + byte_of b2.
Proof.
  pose proof (byte_of_range b0). pose proof (byte_of_range b1). pose proof (byte_of_range b2).
  rewrite !Z.shiftl_mul_pow2 by lia.
  rewrite lor_low by (cbn; lia).
  replace (byte_of b0 * 2 ^ 16 + byte_of b1 * 2 ^ 8)
    with ((byte_of b0 * 2 ^ 8 + byte_of b1) * 2 ^ 8) by ring.
  rewrite lor_low by (cbn; lia). ring.
Qed.

Lemma shiftr_land_mod val k m : 0 ≤ k → 0 ≤ m → Z.land (Z.shiftr val k) (2 ^ m - 1) = (val / 2 ^ k) mod 2 ^ m.
Proof. intros Hk Hm. by rewrite land_ones_mod, Z.shiftr_div_pow2. Qed.

(** ** The round trip *)

Lemma decodeMap_encodeChar v : 0 ≤ v < 64 → decodeMap (encodeChar v) = Some v.
Proof.
  intros Hv.
  assert (Forall (λ n, decodeMap (encodeChar (Z.of_nat n)) = Some (Z.of_nat n)) (seq 0 64)) as Hall.
  { apply (bool_decide_eq_true_1 _). vm_compute. reflexivity. }
  rewrite Forall_forall in Hall. specialize (Hall (Z.to_nat v)).
  rewrite Z2Nat.id in Hall by lia. apply Hall, elem_of_seq. lia.
Qed.

Lemma decodeMap_padChar : decodeMap padChar = None.
Proof. reflexivity. Qed.

(** One quantum: the four symbols of three bytes decode to them, and the
    shorter quanta of the padded end decode to one or two bytes. *)
Lemma encode_quantum_spec b0 b1 b2 :
  ∃ s0 s1 s2 s3,
    encode_quantum b0 b1 b2 = [encodeChar s0; encodeChar s1; encodeChar s2; encodeChar s3] ∧
    0 ≤ s0 < 64 ∧ 0 ≤ s1 < 64 ∧ 0 ≤ s2 < 64 ∧ 0 ≤ s3 < 64 ∧
    quantum_bytes [s0; s1; s2; s3] = [b0; b1; b2] ∧
    (b2 = "000"%char → quantum_bytes [s0; s1; s2] = [b0; b1]) ∧
    (b1 = "000"%char → b2 = "000"%char → quantum_bytes [s0; s1] = [b0]).
Proof.
  pose proof (byte_of_range b0) as R0. pose proof (byte_of_range b1) as R1.
  pose proof (byte_of_range b2) as R2.
  unfold encode_quantum. rewrite encode_val_arith.
  set (val := byte_of b0 * 2 ^ 16 + byte_of b1 * 2 ^ 8 + byte_of b2).
  change 63 with (2 ^ 6 - 1). rewrite !shiftr_land_mod by lia. rewrite land_ones_mod by lia.
  eexists _, _, _, _. split; [reflexivity|].
  assert (∀ vals, quantum_val vals = val →
          quantum_bytes vals = take (length vals - 1) [b0; b1; b2]) as Hbytes.
  { intros vals Hv. unfold quantum_bytes. cbv zeta. rewrite Hv.
    change 255 with (2 ^ 8 - 1). rewrite !shiftr_land_mod, land_ones_mod by lia.
    assert (val / 2 ^ 16 mod 2 ^ 8 = byte_of b0 ∧ val / 2 ^ 8 mod 2 ^ 8 = byte_of b1 ∧
            val mod 2 ^ 8 = byte_of b2) as (-> & -> & ->)
      by (unfold val; Z.div_mod_to_equations; cbn in *; lia).
    by rewrite !char_of_byte_of. }
  assert (0 ≤ val < 2 ^ 24) as Hval by (unfold val; cbn; lia).
  repeat split; try (apply Z.mod_pos_bound; lia).
  - rewrite Hbytes; [done|].
    rewrite quantum_val_arith by (apply Z.mod_pos_bound; lia).
    Z.div_mod_to_equations. cbn in *. lia.
  - intros Hb2. rewrite Hbytes; [done|].
    change (quantum_val [val / 2 ^ 18 mod 2 ^ 6; val / 2 ^ 12 mod 2 ^ 6; val / 2 ^ 6 mod 2 ^ 6])
      with (quantum_val [val / 2 ^ 18 mod 2 ^ 6; val / 2 ^ 12 mod 2 ^ 6; val / 2 ^ 6 mod 2 ^ 6; 0]).
    rewrite quantum_val_arith by (try apply Z.mod_pos_bound; lia).
    assert (byte_of b2 = 0) by (rewrite Hb2; reflexivity).
    unfold val in *. Z.div_mod_to_equations. cbn in *. lia.
  - intros Hb1 Hb2. rewrite Hbytes; [done|].
    change (quantum_val [val / 2 ^ 18 mod 2 ^ 6; val / 2 ^ 12 mod 2 ^ 6])
      with (quantum_val [val / 2 ^ 18 mod 2 ^ 6; val / 2 ^ 12 mod 2 ^ 6; 0; 0]).
    rewrite quantum_val_arith by (try apply Z.mod_pos_bound; lia).
    assert (byte_of b1 = 0) by (rewrite Hb1; reflexivity).
    assert (byte_of b2 = 0) by (rewrite Hb2; reflexivity).
    unfold val in *. Z.div_mod_to_equations. cbn in *. lia.
Qed.

Section DecodeSteps.
Context (total : nat).

Lemma decode_symbol si vals out c v src :
  decodeMap c = Some v → length vals ≠ 3%nat →
  decode_from total si (DQuantum vals) out (c :: src) =
  decode_from total (S si) (DQuantum (vals ++ [v])) out src.
Proof. intros Hc Hl. cbn [decode_from]. rewrite Hc. by rewrite decide_False. Qed.

Lemma decode_symbol_last si vals out c v src :
  decodeMap c = Some v → length vals = 3%nat →
  decode_from total si (DQuantum vals) out (c :: src) =
  decode_from total (S si) (DQuantum []) (out ++ quantum_bytes (vals ++ [v])) src.
Proof. intros Hc Hl. cbn [decode_from]. rewrite Hc. by rewrite decide_True. Qed.

Lemma decode_pad si vals out src :
  decode_from total si (DQuantum vals) out (padChar :: src) =
  match length vals with
  | 0%nat | 1%nat => inr (corrupt si)
  | 2%nat => decode_from total (S si) (DPad2 vals) out src
  | _ => decode_from total (S si) (DTail vals) out src
  end.
Proof. reflexivity. Qed.

(** Decoding the encoding of [src] appends [src] to what was decoded. *)
Lemma decode_from_EncodeToString si out src :
  decode_from total si (DQuantum []) out (EncodeToString src) = inl (out ++ src).
Proof.
  remember (length src) as n eqn:Hn. revert si out src Hn.
  induction n as [n IH] using lt_wf_ind. intros si out src Hn.
  destruct src as [|b0 [|b1 [|b2 src']]]; cbn [EncodeToString].
  - by rewrite app_nil_r.
  - destruct (encode_quantum_spec b0 "000" "000") as (s0 & s1 & s2 & s3 & -> & ? & ? & ? & ? & _ & _ & H1).
    cbn [take app]. rewrite (decode_symbol _ _ _ _ s0), (decode_symbol _ _ _ _ s1) by first [apply decodeMap_encodeChar; lia | done].
    rewrite decode_pad, <- (H1 eq_refl eq_refl). reflexivity.
  - destruct (encode_quantum_spec b0 b1 "000") as (s0 & s1 & s2 & s3 & -> & ? & ? & ? & ? & _ & H2 & _).
    cbn [take app].
    rewrite (decode_symbol _ _ _ _ s0), (decode_symbol _ _ _ _ s1), (decode_symbol _ _ _ _ s2) by first [apply decodeMap_encodeChar; lia | done].
    rewrite decode_pad, <- (H2 eq_refl). reflexivity.
  - destruct (encode_quantum_spec b0 b1 b2) as (s0 & s1 & s2 & s3 & -> & ? & ? & ? & ? & H3 & _ & _).
    cbn [app].
    rewrite (decode_symbol _ _ _ _ s0), (decode_symbol _ _ _ _ s1), (decode_symbol _ _ _ _ s2) by first [apply decodeMap_encodeChar; lia | done].
    rewrite (decode_symbol_last _ _ _ _ s3) by first [apply decodeMap_encodeChar; lia | done].
    cbn [app]. rewrite H3, (IH (length src')); [|cbn in Hn; lia|done].
    by rewrite <- app_assoc.
Qed.
End DecodeSteps.

(** Round trip: decoding what the encoder produced gives the bytes back,
    for every byte string. *)
Theorem DecodeString_EncodeToString src : DecodeString (EncodeToString src) = inl src.
Proof. unfold DecodeString. by rewrite decode_from_EncodeToString. Qed.

(** ** Line breaks and errors

    The decoder skips "\r" and "\n" in every state, and stops at its
    first error with a [CorruptInputError] whose offset lies within the
    input ([len(src)] itself when padding is missing). *)

Lemma decodeMap_newline c : is_newline c = true → decodeMap c = None.
Proof. unfold is_newline. case_bool_decide as Hc; [|done]. by destruct Hc as [-> | ->]. Qed.

(** The branches of one step of [decode_from] on the byte [x]: the
    goals left are the recursive calls and the errors. *)
Ltac decode_branches st x :=
  destruct st as [vals|vals|vals];
  [ destruct (decodeMap x);
    [case_decide|destruct (is_newline x); [|case_decide; [destruct (length vals) as [|[|[|?]]] eqn:?|]]]
  | destruct (is_newline x); [|case_decide]
  | destruct (is_newline x) ].

Lemma decode_newline total si st out c src :
  is_newline c = true → decode_from total si st out (c :: src) = decode_from total (S si) st out src.
Proof.
  intros Hc. cbn [decode_from]. rewrite Hc.
  destruct st; [by rewrite decodeMap_newline|done|done].
Qed.

(** A successful decoding does not depend on the offsets, which only
    enter the error values. *)
Lemma decode_from_success_offsets total si total' si' st out src r :
  decode_from total si st out src = inl r → decode_from total' si' st out src = inl r.
Proof.
  revert si si' st out. induction src as [|x src IH]; intros si si' st out.
  - cbn. by destruct st as [[|? ?]|?|?].
  - cbn [decode_from]. decode_branches st x; try done; apply IH.
Qed.

(** Inserting a line break anywhere in an input that decodes does not
    change the result. *)
Lemma decode_from_insert_newline total si total' si' st out c s1 s2 r :
  is_newline c = true →
  decode_from total' si' st out (s1 ++ s2) = inl r →
  decode_from total si st out (s1 ++ c :: s2) = inl r.
Proof.
  intros Hc. revert total si total' si' st out.
  induction s1 as [|x s1 IH]; intros total si total' si' st out Hr.
  - cbn [app]. rewrite decode_newline by done. by eapply decode_from_success_offsets.
  - revert Hr. cbn [app decode_from]. decode_branches st x; try done; apply IH.
Qed.

(** Every error is [CorruptInputError(off)] with [off <= len(src)]. *)
Lemma decode_from_error total si st out src e :
  (si + length src)%nat = total → decode_from total si st out src = inr e →
  ∃ off, (off ≤ total)%nat ∧ e = corrupt off.
Proof.
  revert si st out. induction src as [|x src IH]; intros si st out Hlen.
  - cbn. destruct st as [[|? ?]|?|?]; intros [= <-]; eexists; split; [|done| |done]; lia.
  - cbn [decode_from length] in *. decode_branches st x; try (intros [= <-]; eexists; split; [|done]; lia);
      apply IH; lia.
Qed.

(** The input a state stands for: the symbols of the open quantum, or a
    whole quantum once its padding has begun. *)
Definition pending (st : dstate) : nat :=
  match st with
  | DQuantum vals => length vals
  | DPad2 _ => 3
  | DTail _ => 4
  end.

Lemma quantum_bytes_length vals : (length (quantum_bytes vals) ≤ 3)%nat.
Proof. unfold quantum_bytes. rewrite length_take. cbn. lia. Qed.

(** Every four bytes of input give at most three bytes of output: [q]
    counts the quanta. *)
Lemma decode_from_length total si st out src r :
  decode_from total si st out src = inl r →
  ∃ q, (4 * q ≤ pending st + length src ∧ length r ≤ length out + 3 * q)%nat.
Proof.
  revert si st out. induction src as [|x src IH]; intros si st out.
  - destruct st as [[|v vals]|vals|vals]; cbn; intros Hr; try done; injection Hr as <-;
      [exists 0%nat; lia|].
    exists 1%nat. rewrite length_app. pose proof (quantum_bytes_length vals). lia.
  - cbn [decode_from length]. decode_branches st x; try done; intros Hr;
      apply IH in Hr as (q & Hq & Hr);
      cbn [pending] in *; rewrite ?length_app in Hq; rewrite ?length_app in Hr;
      cbn [length] in Hq, Hr;
      try match type of Hr with context [length (quantum_bytes ?v)] =>
            pose proof (quantum_bytes_length v) end;
      first [exists q; lia | exists (S q); lia].
Qed.

Lemma DecodeString_insert_newline s1 c s2 r :
  is_newline c = true → DecodeString (s1 ++ s2) = inl r → DecodeString (s1 ++ c :: s2) = inl r.
Proof. apply decode_from_insert_newline. Qed.

(** [DecodeString] allocates [DecodedLen(len(s))] bytes and returns
    [dbuf[:n]]: the decoded bytes fit. *)
Lemma DecodeString_length s r : DecodeString s = inl r → (length r ≤ DecodedLen (length s))%nat.
Proof.
  intros (q & Hq & Hr)%decode_from_length. cbn [pending length] in Hq, Hr.
  unfold DecodedLen. pose proof (Nat.div_le_lower_bound (length s) 4 q ltac:(lia) ltac:(lia)). lia.
Qed.

Lemma DecodeString_error s e :
  DecodeString s = inr e → ∃ off, (off ≤ length s)%nat ∧ e = corrupt off.
Proof. apply decode_from_error. lia. Qed.
