(* ===== verification/Selector.v ===== *)
(** * MessageSelector: [RetrieveUnreadMessageFromSender] and [containsLabel]
    (src/main.go, lines 88-170)

    The function connects (lines 89-105), lists and prints the labels
    (107-119), lists the messages labelled INBOX (122-125), then fetches
    them one by one in the order of the listing (129-156): the first that
    passes the label test of line 134 and has a "From" header equal to
    the sender has its body decoded, printed and returned.  Every failure
    of a call ends the program with [log.Fatalf]; a nil [Payload] or
    [Body] makes it panic.  "" is returned when no message matches, and
    also when the account has no labels.

    The model is written against the interface [GmailService] (Gmail.v)
    and calls the base64 decoder of Base64.v, in the IO monad of the
    Prelude, so that
    what is printed before a failure is kept.  The abstract specification
    is [first_match]: the first message of the listing that [qualifies];
    [scan_messages_select] shows that the loop implements it when the
    fetches succeed and the messages are well formed. *)

From Stdlib Require Import Ascii ZArith Lia.
From stdpp Require Import base list strings option.
From S2P Require Import Prelude Gmail Base64.

(** ** Connecting (lines 89-105)

    Reading [credentials.json], building the OAuth config, obtaining a
    token ([getClient], lines 20-72) and creating the service end either
    with a service handle or with the first error, which the program
    reports with [log.Fatalf].  This file takes that outcome as an input;
    OAuth.v models the steps themselves and shows that every way they
    fail is one of these errors. *)
Inductive SetupError :=
| ReadCredentials (err : bytes)      (** [os.ReadFile("credentials.json")], line 90 *)
| ParseCredentials (err : bytes)     (** [google.ConfigFromJSON], line 96 *)
| ReadAuthCode (err : bytes)         (** [fmt.Scan] in [getTokenFromWeb], line 40 *)
| ExchangeToken (err : bytes)        (** [config.Exchange] in [getTokenFromWeb], line 45 *)
| CacheToken (err : bytes)           (** [os.OpenFile] in [saveToken], line 66 *)
| NewServiceFailed (err : bytes).    (** [gmail.NewService], line 102 *)

Definition setup_message (e : SetupError) : bytes :=
  match e with
  | ReadCredentials err => "Unable to read client secret file: " ++ err
  | ParseCredentials err => "Unable to parse client secret file to config: " ++ err
  | ReadAuthCode err => "Unable to read authorization code: " ++ err
  | ExchangeToken err => "Unable to retrieve token from web: " ++ err
  | CacheToken err => "Unable to cache oauth token: " ++ err
  | NewServiceFailed err => "Unable to retrieve Gmail client: " ++ err
  end.

Definition connect {Srv} (setup : SetupError + Srv) : IO Srv :=
  match setup with
  | inl e => fatal (setup_message e)
  | inr srv => mret srv
  end.

(** ** [containsLabel] (lines 163-170) *)
Fixpoint containsLabel (labels : list bytes) (label : bytes) : bool :=
  match labels with
  | [] => false
  | l :: labels' => if decide (l = label) then true else containsLabel labels' label
  end.

(** The label test of line 134:
    [!containsLabel(msg.LabelIds, "INBOX") || containsLabel(msg.LabelIds, "UNREAD")]. *)
Definition label_test (labels : list bytes) : bool :=
  negb (containsLabel labels "INBOX") || containsLabel labels "UNREAD".

(** The header loop of lines 135-143: [isFromSender] becomes true at the
    first header named "From" whose value is the sender. *)
Fixpoint isFromSender (sender : bytes) (headers : list MessagePartHeader) : bool :=
  match headers with
  | [] => false
  | header :: headers' =>
      if decide (header_Name header = "From") then
        if decide (header_Value header = sender) then true
        else isFromSender sender headers'
      else isFromSender sender headers'
  end.

Section Selector.
Context `{GmailService Srv}.

(** Lines 147-154: decode the body, print it, return it. *)
Definition decode_body (payload : MessagePart) : IO bytes :=
  match part_Body payload with
  | None => lift (Err (Panic NilPointerDereference))
  | Some body =>
      match DecodeString (body_Data body) with
      | inr err => fatal ("Unable to decode message body: " ++ err)
      | inl bodyString => println ("Decoded body: " ++ bodyString);; mret bodyString
      end
  end.

(** The loop of lines 129-156 over the listed messages. *)
Fixpoint scan_messages (srv : Srv) (sender : bytes) (messages : list MessageRef) : IO bytes :=
  match messages with
  | [] => mret []
  | message :: messages' =>
      match Messages_Get srv "me" (ref_Id message) with
      | inr err => fatal ("Unable to retrieve message: " ++ err)
      | inl msg =>
          if label_test (msg_LabelIds msg) then
            match msg_Payload msg with
            | None => lift (Err (Panic NilPointerDereference))
            | Some payload =>
                if isFromSender sender (part_Headers payload) then decode_body payload
                else scan_messages srv sender messages'
            end
          else scan_messages srv sender messages'
      end
  end.

(** [RetrieveUnreadMessageFromSender] (lines 88-160). *)
Definition RetrieveUnreadMessageFromSender (setup : SetupError + Srv) (sender : bytes) : IO bytes :=
  srv ← connect setup;
  let user := "me" in
  match Labels_List srv user with
  | inr err => fatal ("Unable to retrieve labels: " ++ err)
  | inl r =>
      if length (llr_Labels r) =? 0 then println "No labels found.";; mret []
      else
        println "Labels:";;
        for_each (λ l, println ("- " ++ label_Name l)) (llr_Labels r);;
        match Messages_List srv "me" "INBOX" with
        | inr err => fatal ("Unable to retrieve messages: " ++ err)
        | inl result =>
            if 0 <? length (lmr_Messages result) then scan_messages srv sender (lmr_Messages result)
            else mret []
        end
  end.
End Selector.

(** ** The abstract specification of the selection *)

(** A fetched message is well formed when the pointers the program
    follows are set: it has a payload, and the payload has a body. *)
Definition well_formed (m : Message) : Prop :=
  ∃ p, msg_Payload m = Some p ∧ is_Some (part_Body p).

(** The selection predicate: the label test of line 134 and a "From"
    header equal to the sender. *)
Definition qualifies (sender : bytes) (m : Message) : bool :=
  label_test (msg_LabelIds m) &&
  match msg_Payload m with
  | Some p => isFromSender sender (part_Headers p)
  | None => false
  end.

(** The first qualifying message of the listing. *)
Definition first_match (sender : bytes) (ms : list Message) : option Message :=
  List.find (qualifies sender) ms.

Section SelectorSpec.
Context `{GmailService Srv}.

(** What the program does with the selected message. *)
Definition deliver (m : Message) : IO bytes :=
  match msg_Payload m with
  | Some p => decode_body p
  | None => lift (Err (Panic NilPointerDereference))
  end.

(** The outcome the specification gives for a listing. *)
Definition select (sender : bytes) (ms : list Message) : IO bytes :=
  match first_match sender ms with
  | Some m => deliver m
  | None => mret []
  end.

(** Every listed message is fetched successfully, as [fetched]. *)
Definition fetches (srv : Srv) (refs : list MessageRef) (fetched : list Message) : Prop :=
  Forall2 (λ r m, Messages_Get srv "me" (ref_Id r) = inl m) refs fetched.

Lemma containsLabel_spec labels label : containsLabel labels label = true ↔ label ∈ labels.
Proof.
  induction labels as [|l labels IH]; cbn.
  - split; [done|]. intros ?%not_elem_of_nil. done.
  - rewrite elem_of_cons, <- IH. case_decide as Hl.
    + subst. split; [by left|done].
    + split; [by right|]. intros [->|?]; [congruence|done].
Qed.

Lemma containsLabel_false labels label : containsLabel labels label = false ↔ label ∉ labels.
Proof. rewrite <- containsLabel_spec. destruct (containsLabel labels label); naive_solver. Qed.

Lemma isFromSender_spec sender headers :
  isFromSender sender headers = true ↔
  ∃ h, h ∈ headers ∧ header_Name h = "From" ∧ header_Value h = sender.
Proof.
  induction headers as [|h hs IH]; cbn [isFromSender].
  - split; [done|]. by intros (? & ?%not_elem_of_nil & _).
  - split.
    + destruct (decide (header_Name h = "From")); [destruct (decide (header_Value h = sender))|].
      * intros _. exists h. split; [by left|done].
      * intros (h' & ? & ?)%IH. exists h'. split; [by right|done].
      * intros (h' & ? & ?)%IH. exists h'. split; [by right|done].
    + intros (h' & [->|Hh']%elem_of_cons & Hn & Hv).
      * by rewrite !decide_True.
      * repeat case_decide; try done; apply IH; by exists h'.
Qed.

Lemma scan_messages_step srv sender r refs m :
  Messages_Get srv "me" (ref_Id r) = inl m → well_formed m →
  scan_messages srv sender (r :: refs) =
  if qualifies sender m then deliver m else scan_messages srv sender refs.
Proof.
  intros Hget (p & Hp & _). cbn [scan_messages]. rewrite Hget.
  unfold qualifies, deliver. rewrite Hp. by destruct (label_test _).
Qed.

(** Non-qualifying well-formed messages are passed over. *)
Lemma scan_messages_skip srv sender refs1 fetched1 rest :
  fetches srv refs1 fetched1 → Forall well_formed fetched1 →
  Forall (λ m, qualifies sender m = false) fetched1 →
  scan_messages srv sender (refs1 ++ rest) = scan_messages srv sender rest.
Proof.
  induction 1 as [|r m refs1 fetched1 Hget _ IH]; intros Hwf Hq; [done|].
  inversion Hwf; inversion Hq; subst. cbn [app].
  rewrite (scan_messages_step _ _ _ _ m) by done.
  match goal with Hm : qualifies sender m = false |- _ => rewrite Hm end. auto.
Qed.
(** Before the first match, the loop passes over the fetched prefix. *)
Lemma scan_messages_skip_none srv sender refs1 fetched1 rest :
  fetches srv refs1 fetched1 → Forall well_formed fetched1 → first_match sender fetched1 = None →
  scan_messages srv sender (refs1 ++ rest) = scan_messages srv sender rest.
Proof.
  intros Hf Hwf Hnone. apply (scan_messages_skip _ _ _ fetched1); [done|done|].
  apply Forall_forall. intros m Hm.
  destruct (qualifies sender m) eqn:Hq; [|done].
  exfalso. unfold first_match in Hnone.
  eapply find_none in Hnone; [|exact Hm]. congruence.
Qed.

(** The loop depends on the service only through the fetches of the
    listed ids. *)
Lemma scan_messages_ext srv srv' sender refs :
  (∀ r, r ∈ refs → Messages_Get srv "me" (ref_Id r) = Messages_Get srv' "me" (ref_Id r)) →
  scan_messages srv sender refs = scan_messages srv' sender refs.
Proof.
  induction refs as [|r refs IH]; intros Hext; [done|]. cbn [scan_messages].
  rewrite Hext by (by left). rewrite IH; [done|]. intros r' Hr'. apply Hext. by right.
Qed.

(** The loop computes [select] on the fetched messages. *)
Lemma scan_messages_select srv sender refs fetched :
  fetches srv refs fetched → Forall well_formed fetched →
  scan_messages srv sender refs = select sender fetched.
Proof.
  induction 1 as [|r m refs fetched Hget _ IH]; intros Hwf; [done|].
  inversion Hwf; subst. rewrite (scan_messages_step _ _ _ _ m) by done.
  unfold select, first_match. cbn [List.find]. destruct (qualifies sender m); auto.
Qed.

End SelectorSpec.

(** ** Theorems *)

Section SelectorTheorems.
Context `{GmailService Srv}.

(** (C11) The loop implements the specification: when every listed
    message is fetched and well formed, the program delivers the first
    qualifying message of the listing, and returns "" (without error
    and without printing) when there is none. *)
Theorem scan_messages_refines srv sender refs fetched :
  fetches srv refs fetched → Forall well_formed fetched →
  scan_messages srv sender refs = select sender fetched.
Proof. apply scan_messages_select. Qed.

(** (C12) The messages listed after the first qualifying one are never
    fetched: whatever they are, and even if fetching them would fail,
    the result and the output are the same. *)
Theorem scan_messages_stops srv sender refs1 r m refs2 refs2' :
  Messages_Get srv "me" (ref_Id r) = inl m → qualifies sender m = true →
  scan_messages srv sender (refs1 ++ r :: refs2) =
  scan_messages srv sender (refs1 ++ r :: refs2').
Proof.
  intros Hget Hq. induction refs1 as [|r1 refs1 IH]; cbn [app scan_messages].
  - rewrite Hget. unfold qualifies in Hq.
    destruct (label_test _); cbn in Hq; [|done].
    destruct (msg_Payload m) as [p|]; [|done]. by rewrite Hq.
  - destruct (Messages_Get srv "me" (ref_Id r1)) as [m1|]; [|done].
    destruct (label_test (msg_LabelIds m1)); [|done].
    destruct (msg_Payload m1) as [p|]; [|done].
    by destruct (isFromSender sender (part_Headers p)).
Qed.

(** (C13) Reordering, adding or removing messages that do not qualify
    in front of the listing does not change the outcome. *)
Theorem scan_messages_nonqualifying_prefix srv sender refs1 fetched1 refs1' fetched1' rest :
  fetches srv refs1 fetched1 → Forall well_formed fetched1 →
  Forall (λ m, qualifies sender m = false) fetched1 →
  fetches srv refs1' fetched1' → Forall well_formed fetched1' →
  Forall (λ m, qualifies sender m = false) fetched1' →
  scan_messages srv sender (refs1 ++ rest) = scan_messages srv sender (refs1' ++ rest).
Proof. intros. by rewrite !(scan_messages_skip _ _ _ _ rest) by eauto. Qed.

(** (C14) Fail fast: when a fetch fails before any message qualified,
    the program stops with "Unable to retrieve message", after
    printing nothing; it does not go on to the next message. *)
Theorem scan_messages_fetch_error srv sender refs1 fetched1 r refs2 err :
  fetches srv refs1 fetched1 → Forall well_formed fetched1 →
  first_match sender fetched1 = None →
  Messages_Get srv "me" (ref_Id r) = inr err →
  scan_messages srv sender (refs1 ++ r :: refs2) =
  fatal ("Unable to retrieve message: " ++ err).
Proof.
  intros Hf Hwf Hnone Hget.
  rewrite (scan_messages_skip_none _ _ _ fetched1) by done. cbn [scan_messages]. by rewrite Hget.
Qed.

(** (C23) A fetched message that passes the label test but has no
    payload, reached before any message qualified, makes the program
    panic: [msg.Payload.Headers] (line 136) dereferences a nil pointer.
    The specification assumes payloads are always present. *)
Theorem scan_messages_nil_payload srv sender refs1 fetched1 r m refs2 :
  fetches srv refs1 fetched1 → Forall well_formed fetched1 →
  first_match sender fetched1 = None →
  Messages_Get srv "me" (ref_Id r) = inl m → label_test (msg_LabelIds m) = true →
  msg_Payload m = None →
  scan_messages srv sender (refs1 ++ r :: refs2) = lift (Err (Panic NilPointerDereference)).
Proof.
  intros Hf Hwf Hnone Hget Hl Hp.
  rewrite (scan_messages_skip_none _ _ _ fetched1) by done. cbn [scan_messages].
  by rewrite Hget, Hl, Hp.
Qed.

(** (C15) The label test of line 134 is the literal condition
    "not in INBOX, or UNREAD": it accepts every message outside INBOX,
    read or not. *)
Theorem label_test_spec labels :
  label_test labels = true ↔ ("INBOX" : bytes) ∉ labels ∨ ("UNREAD" : bytes) ∈ labels.
Proof.
  unfold label_test. by rewrite orb_true_iff, negb_true_iff, containsLabel_false, containsLabel_spec.
Qed.

(** (C16) The sender test is exact: some header is named exactly
    "From" and has exactly the sender as its value. *)
Theorem qualifies_spec sender m :
  qualifies sender m = true ↔
  (("INBOX" : bytes) ∉ msg_LabelIds m ∨ ("UNREAD" : bytes) ∈ msg_LabelIds m) ∧
  ∃ p h, msg_Payload m = Some p ∧ h ∈ part_Headers p ∧
         header_Name h = "From" ∧ header_Value h = sender.
Proof.
  unfold qualifies, label_test.
  rewrite andb_true_iff, orb_true_iff, negb_true_iff, containsLabel_false, containsLabel_spec.
  destruct (msg_Payload m) as [p|].
  - rewrite isFromSender_spec. naive_solver.
  - naive_solver.
Qed.
End SelectorTheorems.

(** ** The whole retrieval *)

(** What the program prints before fetching: "Labels:" and one line per label. *)
Definition label_lines (labels : list Label) : list bytes :=
  ("Labels:" ++ ["010"%char]) :: map (λ l, ("- " ++ label_Name l) ++ ["010"%char]) labels.

Section RetrieveTheorems.
Context `{GmailService Srv}.

Lemma connect_inr {A} (srv : Srv) (k : Srv → IO A) : (connect (inr srv) ≫= k) = k srv.
Proof. apply io_ret_bind. Qed.

(** The retrieval is the label listing followed by the loop. *)
Lemma Retrieve_scan srv sender r result :
  Labels_List srv "me" = inl r → llr_Labels r ≠ [] →
  Messages_List srv "me" "INBOX" = inl result →
  RetrieveUnreadMessageFromSender (inr srv) sender =
  mkIO (label_lines (llr_Labels r) ++ io_out (scan_messages srv sender (lmr_Messages result)))
       (io_res (scan_messages srv sender (lmr_Messages result))).
Proof.
  intros HL Hne HM. unfold RetrieveUnreadMessageFromSender. rewrite connect_inr, HL.
  destruct (llr_Labels r) as [|l ls] eqn:El; [done|]. cbn [length Nat.eqb].
  rewrite println_bind, for_each_println_bind, HM.
  assert ((if 0 <? length (lmr_Messages result)
           then scan_messages srv sender (lmr_Messages result) else mret [])
          = scan_messages srv sender (lmr_Messages result)) as ->
    by (destruct (lmr_Messages result); reflexivity).
  apply IO_eq; [|done]. done.
Qed.

(** (C17) After connecting, the program prints the labels and then runs
    the selection loop on the first page of the INBOX listing: its
    output follows the labels, and its result is the program's. *)
Theorem Retrieve_runs_scan srv sender r result :
  Labels_List srv "me" = inl r → llr_Labels r ≠ [] →
  Messages_List srv "me" "INBOX" = inl result →
  RetrieveUnreadMessageFromSender (inr srv) sender =
  mkIO (label_lines (llr_Labels r) ++ io_out (scan_messages srv sender (lmr_Messages result)))
       (io_res (scan_messages srv sender (lmr_Messages result))).
Proof. apply Retrieve_scan. Qed.

(** (C18) An account with no labels ends the retrieval at once with "":
    the INBOX is not even listed. *)
Theorem Retrieve_no_labels srv sender r :
  Labels_List srv "me" = inl r → llr_Labels r = [] →
  RetrieveUnreadMessageFromSender (inr srv) sender =
  mkIO [("No labels found." : bytes) ++ ["010"%char]] (Ok []).
Proof.
  intros HL Hnil. unfold RetrieveUnreadMessageFromSender. rewrite connect_inr, HL, Hnil.
  reflexivity.
Qed.

(** (C19) Every failing call of the retrieval ends the program with
    [log.Fatalf] and the call's error: the setup steps and the label
    listing print nothing before, the message listing prints the labels. *)
Theorem Retrieve_call_errors sender :
  (∀ e : SetupError,
     RetrieveUnreadMessageFromSender (inl e : SetupError + Srv) sender = fatal (setup_message e)) ∧
  (∀ srv err, Labels_List srv "me" = inr err →
     RetrieveUnreadMessageFromSender (inr srv) sender = fatal ("Unable to retrieve labels: " ++ err)) ∧
  (∀ srv r err, Labels_List srv "me" = inl r → llr_Labels r ≠ [] →
     Messages_List srv "me" "INBOX" = inr err →
     RetrieveUnreadMessageFromSender (inr srv) sender =
     mkIO (label_lines (llr_Labels r)) (Err (Fatal ("Unable to retrieve messages: " ++ err)))).
Proof.
  split; [done|]. split.
  - intros srv err HL. unfold RetrieveUnreadMessageFromSender. by rewrite connect_inr, HL.
  - intros srv r err HL Hne HM. unfold RetrieveUnreadMessageFromSender. rewrite connect_inr, HL.
    destruct (llr_Labels r) as [|l ls] eqn:El; [done|]. cbn [length Nat.eqb].
    rewrite println_bind, for_each_println_bind, HM.
    apply IO_eq; [|done]. cbn [io_out]. by rewrite app_nil_r.
Qed.
(** A [log.Fatalf] in the loop comes before anything is printed. *)
Lemma scan_messages_fatal_silent srv sender refs m :
  io_res (scan_messages srv sender refs) = Err (Fatal m) → io_out (scan_messages srv sender refs) = [].
Proof.
  induction refs as [|r refs IH]; cbn [scan_messages]; [done|].
  destruct (Messages_Get srv "me" (ref_Id r)) as [msg|err]; [|done].
  destruct (label_test _); [|done]. destruct (msg_Payload msg) as [p|]; [|done].
  destruct (isFromSender _ _); [|done].
  unfold decode_body. destruct (part_Body p) as [b|]; [|done].
  destruct (DecodeString (body_Data b)); done.
Qed.

(** The lines printed before the messages are fetched. *)
Lemma label_lines_not_body labels line :
  line ∈ label_lines labels → ¬ ("Decoded body: " : bytes) `prefix_of` line.
Proof.
  unfold label_lines. intros [->|Hl]%elem_of_cons.
  - by intros ?%prefix_cons_inv_1.
  - apply list_elem_of_In, in_map_iff in Hl as (l & <- & _). by intros ?%prefix_cons_inv_1.
Qed.

Lemma Retrieve_fatal_no_body setup sender m :
  io_res (RetrieveUnreadMessageFromSender setup sender) = Err (Fatal m) →
  ∀ line, line ∈ io_out (RetrieveUnreadMessageFromSender setup sender) →
  ¬ ("Decoded body: " : bytes) `prefix_of` line.
Proof.
  intros Hres line Hline. unfold RetrieveUnreadMessageFromSender in *.
  destruct setup as [e|srv]; [by apply not_elem_of_nil in Hline|].
  rewrite connect_inr in *.
  destruct (Labels_List srv "me") as [r|err]; [|by apply not_elem_of_nil in Hline].
  destruct (length (llr_Labels r) =? 0); [discriminate Hres|].
  rewrite println_bind, for_each_println_bind in *. cbn [io_out io_res] in *.
  destruct (Messages_List srv "me" "INBOX") as [result|err]; cbn [io_out io_res] in *.
  - destruct (0 <? length (lmr_Messages result)); cbn [io_out io_res] in *; [|discriminate Hres].
    rewrite (scan_messages_fatal_silent _ _ _ _ Hres), app_nil_r in Hline.
    by apply (label_lines_not_body (llr_Labels r)).
  - rewrite app_nil_r in Hline. by apply (label_lines_not_body (llr_Labels r)).
Qed.

End RetrieveTheorems.

(** ** On a mailbox snapshot *)

(** The first page of the INBOX listing. *)
Definition inbox_page (mb : Mailbox) : list Message :=
  take (mb_page_size mb) (filter (λ m, has_label "INBOX" m = true) (mb_messages mb)).

(** The mailbox with [extra] messages listed after its own. *)
Definition with_later (mb : Mailbox) (extra : list Message) : Mailbox :=
  {| mb_labels := mb_labels mb; mb_messages := mb_messages mb ++ extra;
     mb_page_size := mb_page_size mb; mb_failing := mb_failing mb |}.

Section MailboxTheorems.

Lemma find_app_Some {A} (p : A → bool) l l' x :
  List.find p l = Some x → List.find p (l ++ l') = Some x.
Proof. induction l as [|y l IH]; cbn; [done|]. destruct (p y); auto. Qed.

(** When the first page is full, later messages do not change it. *)
Lemma mailbox_list_full mb extra :
  mb_page_size mb ≤ length (filter (λ m, has_label "INBOX" m = true) (mb_messages mb)) →
  lmr_Messages (mailbox_list (with_later mb extra) "INBOX") = lmr_Messages (mailbox_list mb "INBOX").
Proof.
  intros Hfull. unfold mailbox_list. cbn [lmr_Messages with_later mb_messages mb_page_size].
  by rewrite list_basics.list.filter_app, fmap_app, take_app_le by (rewrite length_fmap; lia).
Qed.

Lemma mailbox_get_listed mb m :
  NoDup (msg_Id <$> mb_messages mb) → msg_Id m ∉ mb_failing mb → m ∈ mb_messages mb →
  mailbox_get mb (msg_Id m) = inl m.
Proof.
  intros Hnd Hf Hm. unfold mailbox_get. rewrite bool_decide_false by done.
  revert Hnd Hm. induction (mb_messages mb) as [|m' ms IH]; intros Hnd Hm;
    [by apply not_elem_of_nil in Hm|].
  cbn [List.find]. cbn [fmap list_fmap] in Hnd. inversion Hnd as [|? ? Hnin Hnd']; subst.
  apply elem_of_cons in Hm as [->|Hm].
  - by rewrite bool_decide_true.
  - rewrite bool_decide_false; [by apply IH|].
    intros Heq. apply Hnin. rewrite Heq. by apply list_elem_of_fmap_2.
Qed.

Lemma inbox_page_sub mb m : m ∈ inbox_page mb → m ∈ mb_messages mb ∧ has_label "INBOX" m = true.
Proof.
  unfold inbox_page. intros (i & Hi & _)%elem_of_take.
  apply list_elem_of_lookup_2, list_elem_of_filter in Hi. naive_solver.
Qed.

(** Fetching an id listed on the first page is unaffected by later messages. *)
Lemma mailbox_get_page mb extra r :
  r ∈ lmr_Messages (mailbox_list mb "INBOX") →
  mailbox_get (with_later mb extra) (ref_Id r) = mailbox_get mb (ref_Id r).
Proof.
  unfold mailbox_list. cbn [lmr_Messages]. rewrite <- fmap_take.
  intros (m & -> & Hm)%list_elem_of_fmap.
  assert (m ∈ inbox_page mb) as [Hm' _]%inbox_page_sub by exact Hm.
  unfold mailbox_get. cbn [with_later mb_failing mb_messages ref_Id].
  case_bool_decide; [done|].
  destruct (List.find _ (mb_messages mb)) eqn:E.
  - by rewrite (find_app_Some _ _ _ _ E).
  - exfalso. eapply find_none in E; [|apply list_elem_of_In, Hm'].
    by rewrite bool_decide_true in E.
Qed.

Lemma mailbox_fetches mb :
  NoDup (msg_Id <$> mb_messages mb) →
  Forall (λ m, msg_Id m ∉ mb_failing mb) (mb_messages mb) →
  fetches mb (lmr_Messages (mailbox_list mb "INBOX")) (inbox_page mb).
Proof.
  intros Hnd Hf. unfold fetches, mailbox_list. cbn [lmr_Messages].
  rewrite <- fmap_take. fold (inbox_page mb).
  apply Forall2_fmap_l, Forall_Forall2_diag, Forall_forall.
  intros m Hm%list_elem_of_In. apply inbox_page_sub in Hm as [Hm _].
  apply mailbox_get_listed; [done| |done]. apply (proj1 (Forall_forall _ _) Hf). by apply list_elem_of_In.
Qed.
End MailboxTheorems.

(** Whether a message has a "From" header equal to the sender. *)
Definition from_sender (sender : bytes) (m : Message) : bool :=
  match msg_Payload m with
  | Some p => isFromSender sender (part_Headers p)
  | None => false
  end.

Section MailboxRuns.

(** (C20) On a mailbox snapshot with labels, distinct ids, no failing
    fetch and well-formed messages, the program prints the labels and
    delivers the first qualifying message of the first page of the
    INBOX listing, or returns "" when there is none. *)
Theorem Retrieve_mailbox mb sender :
  mb_labels mb ≠ [] → NoDup (msg_Id <$> mb_messages mb) →
  Forall (λ m, (msg_Id m ∉ mb_failing mb) ∧ well_formed m) (mb_messages mb) →
  RetrieveUnreadMessageFromSender (inr mb) sender =
  mkIO (label_lines (mb_labels mb) ++ io_out (select sender (inbox_page mb)))
       (io_res (select sender (inbox_page mb))).
Proof.
  intros Hl Hnd Hok.
  rewrite (Retrieve_scan mb sender {| llr_Labels := mb_labels mb |}
             (mailbox_list mb "INBOX")) by done.
  rewrite (scan_messages_select _ _ _ (inbox_page mb)); [done| |].
  - apply mailbox_fetches; [done|]. revert Hok. apply Forall_impl. naive_solver.
  - apply Forall_forall. intros m Hm%list_elem_of_In%inbox_page_sub.
    destruct Hm as [Hm _]. apply list_elem_of_In in Hm.
    exact (proj2 (proj1 (Forall_forall _ _) Hok m Hm)).
Qed.

(** (C21) On the INBOX listing every message has the label INBOX, so the
    literal test "not in INBOX, or UNREAD" of line 134 selects exactly
    the first UNREAD message from the sender: its unusual first
    disjunct only matters for a message whose labels changed between
    the listing and the fetch. *)
Theorem inbox_page_first_match mb sender :
  first_match sender (inbox_page mb) =
  List.find (λ m, has_label "UNREAD" m && from_sender sender m) (inbox_page mb).
Proof.
  apply find_ext_elem. intros m [_ Hin]%inbox_page_sub.
  unfold qualifies, from_sender, label_test, has_label in *.
  apply bool_decide_eq_true in Hin. apply containsLabel_spec in Hin. rewrite Hin.
  cbn [negb orb]. f_equal.
  destruct (containsLabel (msg_LabelIds m) "UNREAD") eqn:E.
  - symmetry. by apply bool_decide_eq_true, containsLabel_spec.
  - symmetry. apply bool_decide_eq_false. intros Hu%containsLabel_spec. congruence.
Qed.
(** (C22) Only the first page of the INBOX listing is read (line 122
    ignores [NextPageToken]): once the INBOX messages fill a page, any
    messages after them, qualifying or not, leave the program's output
    and result unchanged. *)
Theorem Retrieve_first_page_only mb extra sender :
  mb_page_size mb ≤ length (filter (λ m, has_label "INBOX" m = true) (mb_messages mb)) →
  RetrieveUnreadMessageFromSender (inr (with_later mb extra)) sender =
  RetrieveUnreadMessageFromSender (inr mb) sender.
Proof.
  intros Hfull. destruct (mb_labels mb) as [|l ls] eqn:El.
  - unfold RetrieveUnreadMessageFromSender. rewrite !connect_inr. cbn. by rewrite El.
  - rewrite (Retrieve_scan (with_later mb extra) sender {| llr_Labels := mb_labels mb |}
               (mailbox_list (with_later mb extra) "INBOX")) by (cbn; by rewrite ?El).
    rewrite (Retrieve_scan mb sender {| llr_Labels := mb_labels mb |}
               (mailbox_list mb "INBOX")) by (cbn; by rewrite ?El).
    rewrite mailbox_list_full by done.
    rewrite (scan_messages_ext (with_later mb extra) mb); [done|].
    intros r Hr. by apply mailbox_get_page.
Qed.
End MailboxRuns.

(** ** Concrete runs *)

Definition from_header (s : string) : MessagePartHeader :=
  {| header_Name := "From"; header_Value := s |}.

(** A fetched message with one "From" header and a body. *)
Definition mk_message (id : string) (labels : list string) (from data : string) : Message :=
  {| msg_Id := id; msg_LabelIds := strs labels;
     msg_Payload := Some {| part_Headers := [from_header from];
                            part_Body := Some {| body_Data := data |} |} |}.

Section ConcreteRuns.

(** A one-message page that does not match, and an unread message from
    the sender that arrives after it, on the second page. *)
Definition first_page_mailbox : Mailbox :=
  {| mb_labels := [{| label_Name := "INBOX" |}];
     mb_messages := [mk_message "a" ["INBOX"] "other@mail.example" ""];
     mb_page_size := 1; mb_failing := [] |}.

Definition late_message : Message :=
  mk_message "b" ["INBOX"; "UNREAD"] "news@shows.example" "QWxpY2UgKFVTKQ==".

Lemma Retrieve_first_page_only_witness :
  first_match "news@shows.example" (mb_messages (with_later first_page_mailbox [late_message]))
    = Some late_message ∧
  RetrieveUnreadMessageFromSender (inr (with_later first_page_mailbox [late_message]))
    "news@shows.example" =
  RetrieveUnreadMessageFromSender (inr first_page_mailbox) "news@shows.example".
Proof.
  split; [vm_compute; reflexivity|].
  apply Retrieve_first_page_only. vm_compute. lia.
Defined.

(** A message that passes the label test and has no payload. *)
Definition payloadless : Message :=
  {| msg_Id := "z"; msg_LabelIds := strs ["UNREAD"]; msg_Payload := None |}.

Definition payloadless_mailbox : Mailbox :=
  {| mb_labels := [{| label_Name := "INBOX" |}]; mb_messages := [payloadless];
     mb_page_size := 100; mb_failing := [] |}.

Lemma scan_messages_nil_payload_witness :
  scan_messages payloadless_mailbox "news@shows.example" ([] ++ [{| ref_Id := "z" |}] ++ []) =
  lift (Err (Panic NilPointerDereference)).
Proof.
  apply (scan_messages_nil_payload _ _ [] [] _ payloadless);
    [constructor|constructor|reflexivity|vm_compute; reflexivity|vm_compute; reflexivity|reflexivity].
Defined.

End ConcreteRuns.

(** (C8) The body that is printed and returned fits in the buffer that
    [base64.URLEncoding.DecodeString] allocates for it:
    [DecodedLen(len(data)) = len(data)/4*3] bytes, since every four bytes
    of input, line breaks and padding included, give at most three. *)
Theorem decode_body_length payload text :
  io_res (decode_body payload) = Ok text →
  ∃ b, part_Body payload = Some b ∧ length text ≤ DecodedLen (length (body_Data b)).
Proof.
  unfold decode_body. destruct (part_Body payload) as [b|]; [|done].
  destruct (DecodeString (body_Data b)) as [r|err] eqn:Hd; [|done].
  cbn. intros [= <-]. exists b. split; [done|]. by apply DecodeString_length.
Qed.

(** (C26) With the library's decoder, a body that Gmail encoded with
    [base64.URLEncoding] is decoded to the original bytes, printed after
    "Decoded body: " and returned. *)
Theorem decode_body_encoded payload text :
  part_Body payload = Some {| body_Data := EncodeToString text |} →
  decode_body payload = (println ("Decoded body: " ++ text);; mret text).
Proof.
  intros Hb. unfold decode_body. rewrite Hb. cbn [body_Data].
  by rewrite DecodeString_EncodeToString.
Qed.

(** (C27) The failures of the body decoding have one of two forms: a
    nil [Body] makes the program panic, and otherwise the only error is
    the library's [CorruptInputError], reported with [log.Fatalf] and an
    offset that lies within the body's data. *)
Theorem decode_body_failures payload e :
  io_res (decode_body payload) = Err e →
  (part_Body payload = None ∧ e = Panic NilPointerDereference) ∨
  ∃ b off, part_Body payload = Some b ∧ off ≤ length (body_Data b) ∧
           e = Fatal ("Unable to decode message body: " ++ corrupt off).
Proof.
  unfold decode_body. destruct (part_Body payload) as [b|]; [|intros [= <-]; by left].
  destruct (DecodeString (body_Data b)) as [text|err] eqn:Hd; [done|].
  intros [= <-]. right. apply DecodeString_error in Hd as (off & Hoff & ->). eauto.
Qed.

(** (C28) Line breaks in the encoded body do not matter: inserting a
    "\r" or "\n" anywhere in a body that decodes leaves what
    [decode_body] prints and returns unchanged. *)
Theorem decode_body_newline payload s1 c s2 text :
  part_Body payload = Some {| body_Data := s1 ++ c :: s2 |} → is_newline c = true →
  DecodeString (s1 ++ s2) = inl text →
  decode_body payload = (println ("Decoded body: " ++ text);; mret text).
Proof.
  intros Hb Hc Hd. unfold decode_body. rewrite Hb. cbn [body_Data].
  by rewrite (DecodeString_insert_newline _ _ _ text).
Qed.

(** ** Witnesses, on a demo mailbox with the library's decoder *)

(** Three INBOX messages: a read one from someone else, then two unread
    ones from the sender; "QWxpY2UgKFVTKQ==" is "Alice (US)". *)
Definition demo_messages : list Message :=
  [mk_message "m1" ["INBOX"] "other@mail.example" "";
   mk_message "m2" ["INBOX"; "UNREAD"] "news@shows.example" "QWxpY2UgKFVTKQ==";
   mk_message "m3" ["INBOX"; "UNREAD"] "news@shows.example" "Qm9iIChVSyk="].

Definition demo_mailbox (failing : list string) : Mailbox :=
  {| mb_labels := [{| label_Name := "INBOX" |}; {| label_Name := "UNREAD" |}];
     mb_messages := demo_messages; mb_page_size := 100; mb_failing := strs failing |}.

Definition demo_refs : list MessageRef := (λ m, {| ref_Id := msg_Id m |}) <$> demo_messages.

Lemma scan_messages_refines_witness :
  scan_messages (demo_mailbox []) "news@shows.example" demo_refs =
  select "news@shows.example" demo_messages.
Proof.
  apply scan_messages_refines.
  - repeat constructor.
  - repeat constructor; eexists; (split; [reflexivity|eexists; reflexivity]).
Defined.

Lemma scan_messages_stops_witness :
  scan_messages (demo_mailbox []) "news@shows.example"
    ([{| ref_Id := "m1" |}] ++ {| ref_Id := "m2" |} :: [{| ref_Id := "m3" |}]) =
  scan_messages (demo_mailbox []) "news@shows.example"
    ([{| ref_Id := "m1" |}] ++ {| ref_Id := "m2" |} :: [{| ref_Id := "gone" |}]).
Proof. apply (scan_messages_stops _ _ _ _ (nth 1 demo_messages (mk_message "" [] "" ""))); reflexivity. Defined.

Lemma scan_messages_nonqualifying_prefix_witness :
  scan_messages (demo_mailbox []) "news@shows.example" ([{| ref_Id := "m1" |}] ++ [{| ref_Id := "m2" |}]) =
  scan_messages (demo_mailbox []) "news@shows.example" ([] ++ [{| ref_Id := "m2" |}]).
Proof.
  apply (scan_messages_nonqualifying_prefix _ _ _ (take 1 demo_messages) _ []).
  - repeat constructor.
  - repeat constructor; eexists; (split; [reflexivity|eexists; reflexivity]).
  - repeat constructor.
  - constructor.
  - constructor.
  - constructor.
Defined.

Lemma scan_messages_fetch_error_witness :
  scan_messages (demo_mailbox ["m2"]) "news@shows.example"
    ([{| ref_Id := "m1" |}] ++ {| ref_Id := "m2" |} :: [{| ref_Id := "m3" |}]) =
  fatal ("Unable to retrieve message: " ++ "connection reset by peer").
Proof.
  apply (scan_messages_fetch_error _ _ _ (take 1 demo_messages)).
  - repeat constructor.
  - repeat constructor; eexists; (split; [reflexivity|eexists; reflexivity]).
  - reflexivity.
  - reflexivity.
Defined.

Lemma Retrieve_runs_scan_witness :
  RetrieveUnreadMessageFromSender (inr (demo_mailbox [])) "news@shows.example" =
  mkIO (label_lines (mb_labels (demo_mailbox [])) ++
        io_out (scan_messages (demo_mailbox []) "news@shows.example"
                  (lmr_Messages (mailbox_list (demo_mailbox []) "INBOX"))))
       (io_res (scan_messages (demo_mailbox []) "news@shows.example"
                  (lmr_Messages (mailbox_list (demo_mailbox []) "INBOX")))).
Proof.
  apply (Retrieve_runs_scan (demo_mailbox []) "news@shows.example"
           {| llr_Labels := mb_labels (demo_mailbox []) |}
           (mailbox_list (demo_mailbox []) "INBOX")); [reflexivity|discriminate|reflexivity].
Defined.

Lemma Retrieve_no_labels_witness :
  RetrieveUnreadMessageFromSender
    (inr {| mb_labels := []; mb_messages := demo_messages; mb_page_size := 100; mb_failing := [] |})
    "news@shows.example" =
  mkIO [("No labels found." : bytes) ++ ["010"%char]] (Ok []).
Proof. apply (Retrieve_no_labels _ _ {| llr_Labels := [] |}); reflexivity. Defined.

Lemma Retrieve_mailbox_witness :
  RetrieveUnreadMessageFromSender (inr (demo_mailbox [])) "news@shows.example" =
  mkIO (label_lines (mb_labels (demo_mailbox [])) ++
        io_out (select "news@shows.example" (inbox_page (demo_mailbox []))))
       (io_res (select "news@shows.example" (inbox_page (demo_mailbox [])))).
Proof.
  apply Retrieve_mailbox.
  - discriminate.
  - apply (bool_decide_eq_true_1 _). vm_compute. reflexivity.
  - repeat constructor; try (apply (bool_decide_eq_true_1 _); vm_compute; reflexivity);
      eexists; (split; [reflexivity|eexists; reflexivity]).
Defined.

Lemma decode_body_length_witness :
  ∃ b, part_Body {| part_Headers := []; part_Body := Some {| body_Data := "QWxpY2UgKFVTKQ==" |} |}
         = Some b ∧ length ("Alice (US)" : bytes) ≤ DecodedLen (length (body_Data b)).
Proof. apply decode_body_length. vm_compute. reflexivity. Defined.

Lemma decode_body_encoded_witness :
  decode_body {| part_Headers := []; part_Body := Some {| body_Data := EncodeToString "Alice (US)" |} |}
  = (println ("Decoded body: " ++ "Alice (US)");; mret ("Alice (US)" : bytes)).
Proof. apply decode_body_encoded. reflexivity. Defined.

Lemma decode_body_failures_witness :
  io_res (decode_body {| part_Headers := []; part_Body := Some {| body_Data := "QWxp*2U=" |} |}) =
    Err (Fatal ("Unable to decode message body: " ++ corrupt 4)) ∧
  ((part_Body {| part_Headers := []; part_Body := Some {| body_Data := "QWxp*2U=" |} |} = None ∧
    Fatal ("Unable to decode message body: " ++ corrupt 4) = Panic NilPointerDereference) ∨
   ∃ b off, part_Body {| part_Headers := []; part_Body := Some {| body_Data := "QWxp*2U=" |} |} = Some b ∧
     off ≤ length (body_Data b) ∧
     Fatal ("Unable to decode message body: " ++ corrupt 4) =
       Fatal ("Unable to decode message body: " ++ corrupt off)).
Proof. split; [vm_compute; reflexivity|]. apply decode_body_failures. vm_compute. reflexivity. Defined.

Lemma decode_body_newline_witness :
  decode_body {| part_Headers := []; part_Body := Some {| body_Data := "QWxpY2Ug" ++ "010"%char :: "KFVTKQ==" |} |}
  = (println ("Decoded body: " ++ "Alice (US)");; mret ("Alice (US)" : bytes)).
Proof.
  apply (decode_body_newline _ "QWxpY2Ug" "010"%char "KFVTKQ==");
    [reflexivity|reflexivity|vm_compute; reflexivity].
Defined.
