(* ===== verification/OAuth.v ===== *)
(** * The OAuth token flow and the connection steps (src/main.go, lines 20-72 and 89-105)

    Before it can call Gmail, [RetrieveUnreadMessageFromSender] reads
    [credentials.json], builds an OAuth config from it and asks
    [getClient] for an HTTP client.  [getClient] looks for a cached token
    in [token.json] ([tokenFromFile]); when there is none, or it does not
    decode, it runs the web flow ([getTokenFromWeb]: print the
    authorization URL, read a code on standard input, exchange it for a
    token) and caches the new token ([saveToken]).  The service is then
    created from the client.

    These steps act on the process's surroundings: files, standard input
    and standard output.  They are modelled by explicit state passing in
    the monad [Os]: a run from an [OsState] yields the next [OsState] and
    an [IO] value (what was printed, and how the run ended).  The state
    survives a [log.Fatalf]: a file written before the failure stays
    written.  The libraries called ([encoding/json] on tokens,
    [golang.org/x/oauth2], [gmail.NewService]) are the interfaces
    [TokenJSON] and [GoogleAPI]; [os] and [fmt.Scan] are modelled on
    [OsState] from their documentation. *)

From Stdlib Require Import Ascii ZArith Lia.
From stdpp Require Import base list strings option gmap.
From S2P Require Import Prelude Gmail Selector.

(** ** The libraries *)

(** [oauth2.Token], with the fields its JSON form carries. *)
Record Token := {
  tok_AccessToken : bytes;
  tok_TokenType : bytes;
  tok_RefreshToken : bytes;
  tok_Expiry : bytes
}.

(** [json.NewEncoder(f).Encode(tok)] and [json.NewDecoder(f).Decode(tok)]
    on tokens.  The encoder writes the JSON text and a newline; the
    decoder reads it back, and reports [io.EOF] on an empty file. *)
Class TokenJSON := {
  EncodeToken : Token → bytes;
  DecodeToken : bytes → call Token;
  DecodeToken_EncodeToken t : DecodeToken (EncodeToken t) = inl t;
  DecodeToken_empty : DecodeToken [] = inr ("EOF" : bytes)
}.

(** [google.ConfigFromJSON], [config.AuthCodeURL(state,
    oauth2.AccessTypeOffline)], [config.Exchange], [config.Client] and
    [gmail.NewService(ctx, option.WithHTTPClient(client))]. *)
Class GoogleAPI (Config Client Srv : Type) := {
  ConfigFromJSON : bytes → bytes → call Config;
  AuthCodeURL : Config → bytes → bytes;
  Exchange : Config → bytes → call Token;
  ConfigClient : Config → Token → Client;
  NewService : Client → call Srv
}.

(** [gmail.GmailReadonlyScope]. *)
Definition GmailReadonlyScope : bytes := "https://www.googleapis.com/auth/gmail.readonly".

(** ** The process's surroundings *)

Record OsState := {
  os_files : gmap bytes bytes;   (** the file system: path ↦ contents *)
  os_denied : list bytes;        (** paths that cannot be opened for writing *)
  os_disk_full : bool;           (** every write fails with ENOSPC *)
  os_stdin : bytes               (** what is left to read on standard input *)
}.

Definition set_files (fs : gmap bytes bytes) (st : OsState) : OsState :=
  {| os_files := fs; os_denied := os_denied st; os_disk_full := os_disk_full st;
     os_stdin := os_stdin st |}.

Definition set_stdin (input : bytes) (st : OsState) : OsState :=
  {| os_files := os_files st; os_denied := os_denied st; os_disk_full := os_disk_full st;
     os_stdin := input |}.

(** ** The monad: state passing around [IO] *)

Definition Os (A : Type) := OsState → OsState * IO A.

#[export] Instance os_ret : MRet Os := λ A a st, (st, mret a).
#[export] Instance os_bind : MBind Os :=
  λ A B f m st,
    let '(st1, r) := m st in
    match io_res r with
    | Ok a => let '(st2, r2) := f a st1 in (st2, mkIO (io_out r ++ io_out r2) (io_res r2))
    | Err e => (st1, mkIO (io_out r) (Err e))
    end.

(** An [IO] step that does not touch the surroundings. *)
Definition io {A} (m : IO A) : Os A := λ st, (st, m).

(** ** [os] and [fmt.Scan] *)

(** [os.ReadFile(path)] and [os.Open(path)] followed by a full read. *)
Definition os_ReadFile (path : bytes) (st : OsState) : call bytes :=
  match os_files st !! path with
  | Some data => inl data
  | None => inr ("open " ++ path ++ ": no such file or directory")
  end.

(** [os.OpenFile(path, os.O_RDWR|os.O_CREATE|os.O_TRUNC, 0600)]: the file
    is created, or truncated when it exists. *)
Definition os_OpenFile (path : bytes) : Os (call unit) := λ st,
  if bool_decide (path ∈ os_denied st)
  then (st, mret (inr ("open " ++ path ++ ": permission denied")))
  else (set_files (<[path := []]> (os_files st)) st, mret (inl tt)).

(** [f.Write(data)] at the end of the file. *)
Definition os_Write (path data : bytes) : Os (call unit) := λ st,
  if os_disk_full st
  then (st, mret (inr ("write " ++ path ++ ": no space left on device")))
  else (set_files (<[path := default [] (os_files st !! path) ++ data]> (os_files st)) st,
        mret (inl tt)).

(** The white space [fmt.Scan] skips and stops at (standard input is
    taken to be ASCII). *)
Definition is_scan_space (c : ascii) : bool :=
  bool_decide (c = " "%char ∨ c = "009"%char ∨ c = "010"%char ∨ c = "011"%char ∨
               c = "012"%char ∨ c = "013"%char).

Fixpoint scan_skip (s : bytes) : bytes :=
  match s with
  | c :: s' => if is_scan_space c then scan_skip s' else s
  | [] => []
  end.

Fixpoint scan_word (s : bytes) : bytes * bytes :=
  match s with
  | c :: s' => if is_scan_space c then ([], s) else let '(w, rest) := scan_word s' in (c :: w, rest)
  | [] => ([], [])
  end.

(** [fmt.Scan(&s)] for a string: skip white space, then read up to the
    next white space; [io.EOF] when the input ends first. *)
Definition fmt_Scan : Os (call bytes) := λ st,
  match scan_skip (os_stdin st) with
  | [] => (set_stdin [] st, mret (inr ("EOF" : bytes)))
  | s => let '(w, rest) := scan_word s in (set_stdin rest st, mret (inl w))
  end.

(** ** The token flow (lines 20-72) *)

Section TokenFlow.
Context `{TokenJSON} `{GoogleAPI Config Client Srv}.

(** [tokenFromFile] (lines 52-62).  On a decoding error Go also returns
    the partly filled token, which [getClient] discards. *)
Definition tokenFromFile (file : bytes) : Os (call Token) := λ st,
  (st, mret (match os_ReadFile file st with
             | inr err => inr err
             | inl data => DecodeToken data
             end)).

(** [saveToken] (lines 64-72).  The error of [Encode] is not checked. *)
Definition saveToken (path : bytes) (token : Token) : Os unit :=
  io (println ("Saving credential file to: " ++ path));;
  f ← os_OpenFile path;
  match f with
  | inr err => io (fatal ("Unable to cache oauth token: " ++ err))
  | inl _ => _ ← os_Write path (EncodeToken token); mret tt
  end.

(** [getTokenFromWeb] (lines 34-49). *)
Definition getTokenFromWeb (config : Config) : Os Token :=
  let authURL := AuthCodeURL config "state-token" in
  io (println ("Go to the following link in your browser then type the authorization code: "
               ++ "010"%char :: authURL));;
  authCode ← fmt_Scan;
  match authCode with
  | inr err => io (fatal ("Unable to read authorization code: " ++ err))
  | inl authCode =>
      match Exchange config authCode with
      | inr err => io (fatal ("Unable to retrieve token from web: " ++ err))
      | inl tok => mret tok
      end
  end.

Definition tokFile : bytes := "token.json".

(** [getClient] (lines 20-31). *)
Definition getClient (config : Config) : Os Client :=
  tok ← tokenFromFile tokFile;
  tok ← match tok with
        | inl tok => mret tok
        | inr _ => tok ← getTokenFromWeb config; saveToken tokFile tok;; mret tok
        end;
  mret (ConfigClient config tok).

(** Lines 89-105 of [RetrieveUnreadMessageFromSender]: from the
    credentials file to the service. *)
Definition connect_os : Os Srv :=
  b ← (λ st, (st, mret (os_ReadFile "credentials.json" st)));
  match b with
  | inr err => io (fatal ("Unable to read client secret file: " ++ err))
  | inl b =>
      match ConfigFromJSON b GmailReadonlyScope with
      | inr err => io (fatal ("Unable to parse client secret file to config: " ++ err))
      | inl config =>
          client ← getClient config;
          match NewService client with
          | inr err => io (fatal ("Unable to retrieve Gmail client: " ++ err))
          | inl srv => mret srv
          end
      end
  end.

End TokenFlow.

(** ** Running the monad *)

(** A bind runs its first step, then the continuation from the state it
    left; the outputs are concatenated. *)
Lemma os_bind_ok {A B} (m : Os A) (f : A → Os B) st st1 o a st2 o2 r out :
  m st = (st1, mkIO o (Ok a)) → f a st1 = (st2, mkIO o2 r) → out = o ++ o2 →
  (m ≫= f) st = (st2, mkIO out r).
Proof. intros Hm Hf ->. cbv [mbind os_bind]. by rewrite Hm; cbn; rewrite Hf. Qed.

Lemma os_bind_err {A B} (m : Os A) (f : A → Os B) st st1 o e :
  m st = (st1, mkIO o (Err e)) → (m ≫= f) st = (st1, mkIO o (Err e)).
Proof. intros Hm. cbv [mbind os_bind]. by rewrite Hm. Qed.

Lemma os_ret_run {A} (a : A) st : (mret a : Os A) st = (st, mkIO [] (Ok a)).
Proof. reflexivity. Qed.

Lemma io_run {A} (m : IO A) st : io m st = (st, mkIO (io_out m) (io_res m)).
Proof. by destruct m. Qed.

(** One step of a bind whose first step is solved by [tac]. *)
Ltac os_step tac := eapply os_bind_ok; [tac| |reflexivity].

Lemma set_stdin_files input st : os_files (set_stdin input st) = os_files st.
Proof. done. Qed.

Lemma set_files_id st : set_files (os_files st) st = st.
Proof. by destruct st. Qed.

(** The authorization prompt and the caching notice, as printed. *)
Definition prompt_line `{GoogleAPI Config Client Srv} (config : Config) : bytes :=
  ("Go to the following link in your browser then type the authorization code: "
   ++ "010"%char :: AuthCodeURL config "state-token") ++ ["010"%char].

Definition saving_line (path : bytes) : bytes :=
  ("Saving credential file to: " ++ path) ++ ["010"%char].

Section FlowLemmas.
Context `{TokenJSON} `{GoogleAPI Config Client Srv}.

Lemma fmt_Scan_eof st :
  scan_skip (os_stdin st) = [] → fmt_Scan st = (set_stdin [] st, mkIO [] (Ok (inr ("EOF" : bytes)))).
Proof. intros Hs. unfold fmt_Scan. by rewrite Hs. Qed.

Lemma fmt_Scan_word st c s code rest :
  scan_skip (os_stdin st) = c :: s → scan_word (c :: s) = (code, rest) →
  fmt_Scan st = (set_stdin rest st, mkIO [] (Ok (inl code))).
Proof. intros Hs Hw. unfold fmt_Scan. rewrite Hs. cbv zeta. by rewrite Hw. Qed.

Lemma getTokenFromWeb_eof config st :
  scan_skip (os_stdin st) = [] →
  getTokenFromWeb config st =
  (set_stdin [] st, mkIO [prompt_line config] (Err (Fatal (setup_message (ReadAuthCode "EOF"))))).
Proof.
  intros Hs. unfold getTokenFromWeb.
  os_step ltac:(reflexivity). os_step ltac:(apply fmt_Scan_eof, Hs). reflexivity.
Qed.

Lemma getTokenFromWeb_code config st c s code rest :
  scan_skip (os_stdin st) = c :: s → scan_word (c :: s) = (code, rest) →
  getTokenFromWeb config st =
  (set_stdin rest st,
   mkIO [prompt_line config]
        (match Exchange config code with
         | inl tok => Ok tok
         | inr err => Err (Fatal (setup_message (ExchangeToken err)))
         end)).
Proof.
  intros Hs Hw. unfold getTokenFromWeb.
  os_step ltac:(reflexivity). os_step ltac:(eapply fmt_Scan_word; eauto).
  cbv beta iota. destruct (Exchange config code); reflexivity.
Qed.

Lemma saveToken_denied path t st :
  path ∈ os_denied st →
  saveToken path t st =
  (st, mkIO [saving_line path]
            (Err (Fatal (setup_message (CacheToken ("open " ++ path ++ ": permission denied")))))).
Proof.
  intros Hd. unfold saveToken. os_step ltac:(reflexivity).
  os_step ltac:(unfold os_OpenFile; rewrite bool_decide_eq_true_2 by done; reflexivity).
  reflexivity.
Qed.

(** After [OpenFile] truncated it, the file holds what [Encode] wrote:
    the token, or nothing when the write failed. *)
Lemma saveToken_written path t st :
  path ∉ os_denied st →
  saveToken path t st =
  (set_files (<[path := if os_disk_full st then [] else EncodeToken t]> (os_files st)) st,
   mkIO [saving_line path] (Ok tt)).
Proof.
  intros Hd. unfold saveToken. os_step ltac:(reflexivity).
  os_step ltac:(unfold os_OpenFile; rewrite bool_decide_eq_false_2 by done; reflexivity).
  cbv beta iota. destruct (os_disk_full st) eqn:E;
    os_step ltac:(unfold os_Write; cbn [os_disk_full set_files]; rewrite E; reflexivity);
    [reflexivity|].
  cbn. rewrite lookup_insert_eq, insert_insert_eq. reflexivity.
Qed.

End FlowLemmas.

(** ** [getClient] on every branch *)

Section GetClient.
Context `{TokenJSON} `{GoogleAPI Config Client Srv}.

(** The token [token.json] holds, when it holds one that decodes. *)
Definition cached_token (st : OsState) : option Token :=
  match os_files st !! tokFile with
  | Some data => match DecodeToken data with inl t => Some t | inr _ => None end
  | None => None
  end.

(** The web flow, case by case: no code on standard input, a code the
    server rejects, a token that cannot be cached, or a cached token
    (empty when the write failed). *)
Definition web_outcome (config : Config) (st : OsState) : OsState * IO Client :=
  match scan_skip (os_stdin st) with
  | [] => (set_stdin [] st,
           mkIO [prompt_line config] (Err (Fatal (setup_message (ReadAuthCode "EOF")))))
  | s =>
      let '(code, rest) := scan_word s in
      match Exchange config code with
      | inr err => (set_stdin rest st,
                    mkIO [prompt_line config] (Err (Fatal (setup_message (ExchangeToken err)))))
      | inl tok =>
          if bool_decide (tokFile ∈ os_denied st)
          then (set_stdin rest st,
                mkIO [prompt_line config; saving_line tokFile]
                     (Err (Fatal (setup_message
                                    (CacheToken ("open " ++ tokFile ++ ": permission denied"))))))
          else (set_files (<[tokFile := if os_disk_full st then [] else EncodeToken tok]>
                             (os_files st)) (set_stdin rest st),
                mkIO [prompt_line config; saving_line tokFile] (Ok (ConfigClient config tok)))
      end
  end.

Lemma tokenFromFile_cached st t :
  cached_token st = Some t → tokenFromFile tokFile st = (st, mkIO [] (Ok (inl t))).
Proof.
  unfold cached_token, tokenFromFile, os_ReadFile.
  destruct (os_files st !! tokFile); [|done].
  by destruct (DecodeToken _); intros [= ->].
Qed.

Lemma tokenFromFile_missing st :
  cached_token st = None → ∃ err, tokenFromFile tokFile st = (st, mkIO [] (Ok (inr err))).
Proof.
  unfold cached_token, tokenFromFile, os_ReadFile.
  destruct (os_files st !! tokFile); [|eauto].
  destruct (DecodeToken _); [done|eauto].
Qed.

(** With a token in [token.json], [getClient] stops at line 24. *)
Lemma getClient_from_cache config st t :
  cached_token st = Some t → getClient config st = (st, mkIO [] (Ok (ConfigClient config t))).
Proof.
  intros C. unfold getClient.
  os_step ltac:(by apply tokenFromFile_cached). os_step ltac:(reflexivity). reflexivity.
Qed.

Lemma getClient_run config st :
  getClient config st =
  match cached_token st with
  | Some t => (st, mkIO [] (Ok (ConfigClient config t)))
  | None => web_outcome config st
  end.
Proof.
  destruct (cached_token st) as [t|] eqn:C; [by apply getClient_from_cache|].
  unfold getClient.
  destruct (tokenFromFile_missing st C) as [err Hf].
  unfold web_outcome. destruct (scan_skip (os_stdin st)) as [|c s] eqn:Hs.
  { os_step ltac:(exact Hf). apply os_bind_err, os_bind_err, getTokenFromWeb_eof, Hs. }
  destruct (scan_word (c :: s)) as [code rest] eqn:Hw.
  pose proof (getTokenFromWeb_code config st c s code rest Hs Hw) as Hweb.
  destruct (Exchange config code) as [tok|e] eqn:Ex;
    [|os_step ltac:(exact Hf); by apply os_bind_err, os_bind_err].
  case_bool_decide as Hd; os_step ltac:(exact Hf); cbv beta iota.
  - apply os_bind_err. os_step ltac:(exact Hweb). by apply os_bind_err, saveToken_denied.
  - os_step ltac:(os_step ltac:(exact Hweb); os_step ltac:(by apply saveToken_written);
                  reflexivity).
    reflexivity.
Qed.

(** The web flow on a code the server accepts, with [token.json]
    openable: the token is written, or truncated to nothing on a full
    disk, and the run succeeds either way. *)
Lemma web_outcome_code config st c s code rest tok :
  scan_skip (os_stdin st) = c :: s → scan_word (c :: s) = (code, rest) →
  Exchange config code = inl tok → tokFile ∉ os_denied st →
  web_outcome config st =
  (set_files (<[tokFile := if os_disk_full st then [] else EncodeToken tok]> (os_files st))
             (set_stdin rest st),
   mkIO [prompt_line config; saving_line tokFile] (Ok (ConfigClient config tok))).
Proof.
  intros Hs Hw Hx Hd. unfold web_outcome. rewrite Hs. cbv beta iota. rewrite Hw. cbv beta iota.
  by rewrite Hx, bool_decide_eq_false_2 by done.
Qed.

(** The three ways the web flow ends. *)
Lemma web_outcome_Ok config st st' out c :
  web_outcome config st = (st', mkIO out (Ok c)) →
  ∃ tok rest, c = ConfigClient config tok ∧ (tokFile ∉ os_denied st) ∧
    st' = set_files (<[tokFile := if os_disk_full st then [] else EncodeToken tok]> (os_files st))
                    (set_stdin rest st).
Proof.
  unfold web_outcome. destruct (scan_skip _) as [|c0 s]; [done|].
  destruct (scan_word _) as [code rest]. destruct (Exchange config code) as [tok|]; [|done].
  case_bool_decide; [done|]. intros [= <- _ <-]. eauto.
Qed.

Lemma web_outcome_Err config st st' out e :
  web_outcome config st = (st', mkIO out (Err e)) →
  os_files st' = os_files st ∧
  ∃ err, e = Fatal (setup_message (ReadAuthCode err)) ∨
         e = Fatal (setup_message (ExchangeToken err)) ∨
         e = Fatal (setup_message (CacheToken err)).
Proof.
  unfold web_outcome. destruct (scan_skip _) as [|c0 s]; [intros [= <- _ <-]; eauto|].
  destruct (scan_word _) as [code rest]. destruct (Exchange config code) as [tok|err].
  - case_bool_decide; [intros [= <- _ <-]; eauto 10|done].
  - intros [= <- _ <-]; eauto 10.
Qed.

(** Whatever its outcome, the web flow writes no file but [token.json]. *)
Lemma web_outcome_frame config st p :
  p ≠ tokFile → os_files (web_outcome config st).1 !! p = os_files st !! p.
Proof.
  intros Hp. unfold web_outcome. destruct (scan_skip _) as [|c0 s]; [done|].
  destruct (scan_word _) as [code rest]. destruct (Exchange config code); [|done].
  case_bool_decide; [done|]. cbn [fst set_files os_files]. by rewrite lookup_insert_ne by congruence.
Qed.

Lemma cached_token_set_stdin input st : cached_token (set_stdin input st) = cached_token st.
Proof. done. Qed.

Lemma web_outcome_head config st :
  head (io_out (web_outcome config st).2) = Some (prompt_line config).
Proof.
  unfold web_outcome. destruct (scan_skip _) as [|c0 s]; [done|].
  destruct (scan_word _) as [code rest]. destruct (Exchange config code); [|done].
  by case_bool_decide.
Qed.

Lemma web_outcome_disk config st : os_disk_full (web_outcome config st).1 = os_disk_full st.
Proof.
  unfold web_outcome. destruct (scan_skip _) as [|c0 s]; [done|].
  destruct (scan_word _) as [code rest]. destruct (Exchange config code); [|done].
  by case_bool_decide.
Qed.

End GetClient.

(** ** The connection steps, on every branch *)

Section Connect.
Context `{TokenJSON} `{GoogleAPI Config Client Srv}.

Lemma connect_os_run st :
  connect_os st =
  match os_ReadFile "credentials.json" st with
  | inr err => (st, mkIO [] (Err (Fatal (setup_message (ReadCredentials err)))))
  | inl b =>
      match ConfigFromJSON b GmailReadonlyScope with
      | inr err => (st, mkIO [] (Err (Fatal (setup_message (ParseCredentials err)))))
      | inl config =>
          ((getClient config st).1,
           match io_res (getClient config st).2 with
           | Ok client =>
               mkIO (io_out (getClient config st).2)
                    (match NewService client with
                     | inl srv => Ok srv
                     | inr err => Err (Fatal (setup_message (NewServiceFailed err)))
                     end)
           | Err e => mkIO (io_out (getClient config st).2) (Err e)
           end)
      end
  end.
Proof.
  unfold connect_os. destruct (os_ReadFile _ st) as [b|err] eqn:Hr.
  2: { os_step ltac:(reflexivity). rewrite Hr. reflexivity. }
  destruct (ConfigFromJSON b _) as [config|err] eqn:Hcf.
  2: { os_step ltac:(reflexivity). rewrite Hr. cbv beta iota. rewrite Hcf. reflexivity. }
  destruct (getClient config st) as [st' [out [client|e]]] eqn:Hc; cbn [fst snd io_res io_out];
    os_step ltac:(reflexivity); rewrite Hr; cbv beta iota; rewrite Hcf.
  - eapply os_bind_ok; [exact Hc| |by rewrite app_nil_r].
    destruct (NewService client); reflexivity.
  - by apply os_bind_err.
Qed.

(** The connection succeeds when every step does. *)
Lemma connect_os_ok st b config st' out client srv :
  os_ReadFile "credentials.json" st = inl b → ConfigFromJSON b GmailReadonlyScope = inl config →
  getClient config st = (st', mkIO out (Ok client)) → NewService client = inl srv →
  connect_os st = (st', mkIO out (Ok srv)).
Proof.
  intros Hr Hcf Hc Hns. rewrite connect_os_run, Hr. cbv beta iota. rewrite Hcf, Hc.
  cbn [fst snd io_res io_out]. by rewrite Hns.
Qed.

Lemma connect_os_err st st' out e :
  connect_os st = (st', mkIO out (Err e)) → ∃ se, e = Fatal (setup_message se).
Proof.
  rewrite connect_os_run.
  destruct (os_ReadFile _ st); [|intros [= _ _ <-]; eexists (ReadCredentials _); reflexivity].
  destruct (ConfigFromJSON _ _) as [config|];
    [|intros [= _ _ <-]; eexists (ParseCredentials _); reflexivity].
  destruct (getClient config st) as [st1 [out1 [client|e1]]] eqn:Hc; cbn [fst snd io_res io_out].
  - destruct (NewService client); [done|intros [= _ _ <-]; eexists (NewServiceFailed _); reflexivity].
  - intros [= _ _ <-]. rewrite getClient_run in Hc. destruct (cached_token st); [done|].
    apply web_outcome_Err in Hc as [_ [err [->|[->| ->]]]]; eauto.
Qed.

End Connect.

(** ** Successive runs on one machine *)

Section Runs.
Context `{TokenJSON} `{GoogleAPI Config Client Srv}.

(** One run of the program's connection steps, with whatever the user
    types on standard input this time.  Files, permissions and the disk
    carry over from one run to the next. *)
Inductive run_step : OsState → OsState → Prop :=
| run_step_connect input st : run_step st (connect_os (set_stdin input st)).1.

(** [token.json] is absent or holds a token that decodes. *)
Definition cache_ok (st : OsState) : Prop :=
  ∀ data, os_files st !! tokFile = Some data → ∃ t, DecodeToken data = inl t.

(** The connection steps change the state only through [getClient]. *)
Lemma connect_os_getClient_ind (P : OsState → Prop) st :
  P st → (∀ config, P (getClient config st).1) → P (connect_os st).1.
Proof.
  intros Hst Hget. rewrite connect_os_run.
  destruct (os_ReadFile _ st); [|done]. destruct (ConfigFromJSON _ _); [apply Hget|done].
Qed.

Lemma getClient_disk config st : os_disk_full (getClient config st).1 = os_disk_full st.
Proof. rewrite getClient_run. destruct (cached_token st); [done|]. apply web_outcome_disk. Qed.

Lemma getClient_cache_ok config st :
  os_disk_full st = false → cache_ok st → cache_ok (getClient config st).1.
Proof.
  intros Hf Hok. rewrite getClient_run. destruct (cached_token st); [done|].
  destruct (web_outcome config st) as [st' [out [c|e]]] eqn:W; cbn [fst].
  - apply web_outcome_Ok in W as (tok & rest & _ & _ & ->).
    intros data. cbn [set_files os_files]. rewrite Hf, lookup_insert_eq. intros [= <-].
    exists tok. apply DecodeToken_EncodeToken.
  - apply web_outcome_Err in W as [Hfiles _]. intros data. rewrite Hfiles. apply Hok.
Qed.

Lemma getClient_keeps_cache config st t :
  cached_token st = Some t → (getClient config st).1 = st.
Proof. intros Ht. by rewrite getClient_run, Ht. Qed.

End Runs.

(** ** Theorems: the token cache *)

Section TokenTheorems.
Context `{TokenJSON} `{GoogleAPI Config Client Srv}.

(** (C30) With a token in [token.json] that decodes, [getClient] prints
    nothing, reads nothing from standard input, changes no file and
    builds the client from that token. *)
Theorem getClient_cached config st t :
  cached_token st = Some t →
  getClient config st = (st, mkIO [] (Ok (ConfigClient config t))).
Proof. apply getClient_from_cache. Qed.

(** (C31) Without a usable cached token, [getClient] prints the
    authorization URL, reads one word from standard input, exchanges it,
    announces and writes [token.json] with the encoded token, and builds
    the client from the new token. *)
Theorem getClient_web_ok config st c s code rest tok :
  cached_token st = None → scan_skip (os_stdin st) = c :: s → scan_word (c :: s) = (code, rest) →
  Exchange config code = inl tok → tokFile ∉ os_denied st → os_disk_full st = false →
  getClient config st =
  (set_files (<[tokFile := EncodeToken tok]> (os_files st)) (set_stdin rest st),
   mkIO [prompt_line config; saving_line tokFile] (Ok (ConfigClient config tok))).
Proof. intros Hc Hs Hw Hx Hd Hf. by rewrite getClient_run, Hc, (web_outcome_code _ _ c s code rest tok), Hf. Qed.

(** (C32) The cache round trip: after a successful [getClient] on a
    working disk, the next run, whatever it reads on standard input,
    finds the token in [token.json]: it prints nothing, changes nothing
    and returns the same client. *)
Theorem getClient_roundtrip config st st' out c input :
  getClient config st = (st', mkIO out (Ok c)) → os_disk_full st = false →
  getClient config (set_stdin input st') = (set_stdin input st', mkIO [] (Ok c)).
Proof.
  rewrite getClient_run. intros Hrun Hf. rewrite getClient_run, cached_token_set_stdin.
  destruct (cached_token st) as [t|] eqn:Ct.
  - injection Hrun as <- <- <-. by rewrite Ct.
  - apply web_outcome_Ok in Hrun as (tok & rest & -> & _ & ->).
    unfold cached_token. cbn [set_files os_files].
    by rewrite Hf, lookup_insert_eq, DecodeToken_EncodeToken.
Qed.

(** (C33) When the token flow fails (no code on standard input, a code
    the server rejects, or [token.json] that cannot be opened for
    writing), the program ends with the matching [log.Fatalf] and no
    file has changed. *)
Theorem getClient_failure config st st' out e :
  getClient config st = (st', mkIO out (Err e)) →
  os_files st' = os_files st ∧
  ∃ err, e = Fatal (setup_message (ReadAuthCode err)) ∨
         e = Fatal (setup_message (ExchangeToken err)) ∨
         e = Fatal (setup_message (CacheToken err)).
Proof. rewrite getClient_run. destruct (cached_token st); [done|]. apply web_outcome_Err. Qed.

(** (C34) The error of [json.NewEncoder(f).Encode(token)] is dropped
    (line 71): on a full disk, when the user types a code the server
    accepts and [token.json] can be opened, the run still succeeds with
    the new token, but [token.json] is left truncated and empty, so the
    next run prompts for a code again. *)
Theorem getClient_disk_full config st c s code rest tok :
  os_disk_full st = true → cached_token st = None →
  scan_skip (os_stdin st) = c :: s → scan_word (c :: s) = (code, rest) →
  Exchange config code = inl tok → tokFile ∉ os_denied st →
  getClient config st =
    (set_files (<[tokFile := []]> (os_files st)) (set_stdin rest st),
     mkIO [prompt_line config; saving_line tokFile] (Ok (ConfigClient config tok))) ∧
  cached_token (getClient config st).1 = None ∧
  ∀ input, head (io_out (getClient config (set_stdin input (getClient config st).1)).2)
           = Some (prompt_line config).
Proof.
  intros Hf Ct Hs Hw Hx Hd.
  assert (getClient config st =
    (set_files (<[tokFile := []]> (os_files st)) (set_stdin rest st),
     mkIO [prompt_line config; saving_line tokFile] (Ok (ConfigClient config tok)))) as Hrun
    by (by rewrite getClient_run, Ct, (web_outcome_code _ _ c s code rest tok), Hf).
  assert (cached_token (set_files (<[tokFile:=[]]> (os_files st)) (set_stdin rest st)) = None) as Hn.
  { unfold cached_token. cbn [set_files os_files]. by rewrite lookup_insert_eq, DecodeToken_empty. }
  rewrite Hrun. cbn [fst]. split; [done|]. split; [done|].
  intros input. by rewrite getClient_run, cached_token_set_stdin, Hn, web_outcome_head.
Qed.

(** (C35) The connection steps write no file but [token.json]: in
    particular [credentials.json] is only read. *)
Theorem connect_os_frame st p :
  p ≠ tokFile → os_files (connect_os st).1 !! p = os_files st !! p.
Proof.
  intros Hp. apply (connect_os_getClient_ind (λ st', os_files st' !! p = os_files st !! p)); [done|].
  intros config. rewrite getClient_run. destruct (cached_token st); [done|].
  by apply web_outcome_frame.
Qed.

(** (C36) On a working disk, a [token.json] that is absent or decodes
    stays so over any sequence of runs, whatever their outcome: a run
    never leaves a corrupt cache behind. *)
Theorem cache_ok_runs st st' :
  os_disk_full st = false → cache_ok st → rtc run_step st st' → cache_ok st'.
Proof.
  intros Hf Hok Hr. revert Hf Hok.
  induction Hr as [|x y z Hxy _ IH]; intros Hf Hok; [done|].
  destruct Hxy as [input x]. apply IH.
  - apply (connect_os_getClient_ind (λ s, os_disk_full s = false)); [done|].
    intros config. by rewrite getClient_disk.
  - apply connect_os_getClient_ind; [done|]. intros config. by apply getClient_cache_ok.
Qed.

(** (C37) Once [token.json] holds a token, it is never rewritten, and no
    later run prompts for a code: each builds its client from that
    token without printing or reading anything. *)
Theorem cached_runs_no_prompt st st' t :
  cached_token st = Some t → rtc run_step st st' →
  cached_token st' = Some t ∧
  ∀ config input,
    getClient config (set_stdin input st') = (set_stdin input st', mkIO [] (Ok (ConfigClient config t))).
Proof.
  intros Ht Hr. assert (cached_token st' = Some t) as Ht'.
  { induction Hr as [|x y z Hxy _ IH]; [done|]. apply IH. destruct Hxy as [input x].
    apply (connect_os_getClient_ind (λ s, cached_token s = Some t)); [done|].
    intros config. by rewrite (getClient_keeps_cache _ _ t). }
  split; [done|]. intros config input. by rewrite getClient_run, cached_token_set_stdin, Ht'.
Qed.

End TokenTheorems.

(** ** Concrete runs

    A stand-in for [encoding/json] on tokens that satisfies the laws of
    [TokenJSON] (each byte of a field doubled, a field closed by "|#",
    a final newline), and a Google API that accepts one client secret and
    one authorization code.  They serve the concrete runs only: every
    theorem above holds for any implementation of the interfaces. *)

Fixpoint enc_field (f : bytes) : bytes :=
  match f with
  | [] => ["|"%char; "#"%char]
  | c :: f' => c :: c :: enc_field f'
  end.

Fixpoint dec_field (s : bytes) : option (bytes * bytes) :=
  match s with
  | c1 :: c2 :: s' =>
      if decide (c1 = c2) then '(w, rest) ← dec_field s'; Some (c1 :: w, rest)
      else if decide (c1 = "|"%char ∧ c2 = "#"%char) then Some ([], s') else None
  | _ => None
  end.

Lemma dec_enc_field f rest : dec_field (enc_field f ++ rest) = Some (f, rest).
Proof. induction f as [|c f IH]; cbn; [done|]. rewrite decide_True by done. by rewrite IH. Qed.

Definition demo_EncodeToken (t : Token) : bytes :=
  enc_field (tok_AccessToken t) ++ enc_field (tok_TokenType t) ++
  enc_field (tok_RefreshToken t) ++ enc_field (tok_Expiry t) ++ ["010"%char].

Definition demo_DecodeToken (s : bytes) : call Token :=
  if decide (s = []) then inr ("EOF" : bytes) else
  match '(a, s1) ← dec_field s; '(ty, s2) ← dec_field s1; '(r, s3) ← dec_field s2;
        '(e, s4) ← dec_field s3;
        if decide (s4 = ["010"%char])
        then Some {| tok_AccessToken := a; tok_TokenType := ty; tok_RefreshToken := r; tok_Expiry := e |}
        else None with
  | Some t => inl t
  | None => inr ("invalid character in token file" : bytes)
  end.

Lemma demo_DecodeToken_EncodeToken t : demo_DecodeToken (demo_EncodeToken t) = inl t.
Proof.
  unfold demo_DecodeToken, demo_EncodeToken. rewrite decide_False by (by destruct (tok_AccessToken t)).
  do 4 (rewrite dec_enc_field; cbn [mbind option_bind]). by destruct t.
Qed.

#[export] Instance demo_json : TokenJSON := {|
  EncodeToken := demo_EncodeToken;
  DecodeToken := demo_DecodeToken;
  DecodeToken_EncodeToken := demo_DecodeToken_EncodeToken;
  DecodeToken_empty := eq_refl
|}.

(** The client secret file of the concrete runs (its JSON quoting left out). *)
Definition demo_credentials : bytes := "{installed: {client_id: demo-client}}".

Definition demo_token : Token :=
  {| tok_AccessToken := "ya29.demo"; tok_TokenType := "Bearer";
     tok_RefreshToken := "1//demo-refresh"; tok_Expiry := "2026-11-09T12:00:00Z" |}.

#[export] Instance demo_google : GoogleAPI bytes Token Mailbox := {|
  ConfigFromJSON b scope :=
    if decide (b = demo_credentials) then inl ("demo-client" : bytes)
    else inr ("invalid character 'x' looking for beginning of value" : bytes);
  AuthCodeURL config state :=
    "https://accounts.google.com/o/oauth2/auth?access_type=offline&client_id=" ++ config ++
    "&response_type=code&state=" ++ state;
  Exchange config code :=
    if decide (code = "4/demo-code") then inl demo_token
    else inr ("oauth2: cannot fetch token: 400 Bad Request" : bytes);
  ConfigClient config tok := tok;
  NewService client := inl (demo_mailbox [])
|}.

(** A machine with the client secret, [token.json] as given, and the
    user's input. *)
Definition demo_os (token : option bytes) (disk_full : bool) (input : string) : OsState :=
  {| os_files := <[("credentials.json" : bytes) := demo_credentials]>
                   (match token with Some d => {[tokFile := d]} | None => ∅ end);
     os_denied := []; os_disk_full := disk_full; os_stdin := input |}.

Definition fresh_os : OsState := demo_os None false "  4/demo-code
".
Definition cached_os : OsState := demo_os (Some (demo_EncodeToken demo_token)) false "".

(** The first run: the user types the code; the token is cached. *)
Definition after_first_run : OsState :=
  set_files (<[tokFile := demo_EncodeToken demo_token]> (os_files fresh_os)) (set_stdin ["010"%char] fresh_os).

Lemma getClient_cached_witness :
  getClient ("demo-client" : bytes) cached_os = (cached_os, mkIO [] (Ok demo_token)).
Proof. apply (@getClient_cached demo_json bytes Token Mailbox demo_google _ _ demo_token). vm_compute. reflexivity. Defined.

Lemma getClient_web_ok_witness :
  getClient ("demo-client" : bytes) fresh_os =
  (after_first_run,
   mkIO [prompt_line ("demo-client" : bytes); saving_line tokFile] (Ok demo_token)).
Proof.
  apply (@getClient_web_ok demo_json bytes Token Mailbox demo_google _ _ "4"%char "/demo-code
" "4/demo-code" ["010"%char] demo_token);
    [vm_compute; reflexivity..|apply not_elem_of_nil|reflexivity].
Defined.

Lemma getClient_roundtrip_witness :
  getClient ("demo-client" : bytes) (set_stdin "" after_first_run) =
  (set_stdin "" after_first_run, mkIO [] (Ok demo_token)).
Proof.
  apply (@getClient_roundtrip demo_json bytes Token Mailbox demo_google _ fresh_os after_first_run
           [prompt_line ("demo-client" : bytes); saving_line tokFile]);
    [vm_compute; reflexivity|reflexivity].
Defined.

Lemma getClient_failure_witness :
  os_files (getClient ("demo-client" : bytes) (demo_os None false "wrong-code")).1 =
    os_files (demo_os None false "wrong-code") ∧
  ∃ err, Fatal (setup_message (ExchangeToken "oauth2: cannot fetch token: 400 Bad Request")) =
           Fatal (setup_message (ReadAuthCode err)) ∨
         Fatal (setup_message (ExchangeToken "oauth2: cannot fetch token: 400 Bad Request")) =
           Fatal (setup_message (ExchangeToken err)) ∨
         Fatal (setup_message (ExchangeToken "oauth2: cannot fetch token: 400 Bad Request")) =
           Fatal (setup_message (CacheToken err)).
Proof.
  apply (@getClient_failure demo_json bytes Token Mailbox demo_google ("demo-client" : bytes)
           (demo_os None false "wrong-code")
           (getClient ("demo-client" : bytes) (demo_os None false "wrong-code")).1
           (io_out (getClient ("demo-client" : bytes) (demo_os None false "wrong-code")).2)).
  vm_compute. reflexivity.
Defined.

Lemma getClient_disk_full_witness :
  getClient ("demo-client" : bytes) (demo_os None true "4/demo-code") =
    (set_files (<[tokFile := []]> (os_files (demo_os None true "4/demo-code")))
               (set_stdin [] (demo_os None true "4/demo-code")),
     mkIO [prompt_line ("demo-client" : bytes); saving_line tokFile] (Ok demo_token)) ∧
  cached_token (getClient ("demo-client" : bytes) (demo_os None true "4/demo-code")).1 = None.
Proof.
  destruct (@getClient_disk_full demo_json bytes Token Mailbox demo_google ("demo-client" : bytes)
              (demo_os None true "4/demo-code") "4"%char "/demo-code" "4/demo-code" [] demo_token)
    as (H1 & H2 & _); [reflexivity|vm_compute; reflexivity..|apply not_elem_of_nil|].
  split; [exact H1|exact H2].
Defined.

Lemma connect_os_frame_witness :
  os_files (connect_os fresh_os).1 !! ("credentials.json" : bytes) =
  os_files fresh_os !! ("credentials.json" : bytes).
Proof. apply (@connect_os_frame demo_json bytes Token Mailbox demo_google). discriminate. Defined.

Lemma cache_ok_runs_witness : cache_ok (connect_os (set_stdin "4/demo-code" fresh_os)).1.
Proof.
  apply (@cache_ok_runs demo_json bytes Token Mailbox demo_google fresh_os); [reflexivity| |apply rtc_once; constructor].
  intros data Hd. vm_compute in Hd. discriminate.
Defined.

Lemma cached_runs_no_prompt_witness :
  cached_token (connect_os (set_stdin "whatever" cached_os)).1 = Some demo_token.
Proof.
  apply (@cached_runs_no_prompt demo_json bytes Token Mailbox demo_google cached_os _ demo_token);
    [vm_compute; reflexivity|apply rtc_once; constructor].
Defined.
