(* ===== verification/Main.v ===== *)
(** * The program: [main] (src/main.go, lines 74-86)

    [main] reads the sender from the environment variable TARGET_SENDER,
    retrieves the message body (Selector.v), prints it, extracts the
    artists (Extract.v) and prints them as a Go slice, or "No artists
    found!".  The two components share no state: the body string is the
    only value passed from one to the other, after the retrieval is over.

    The world the program runs in is a record: the environment and the
    outcome of connecting to Gmail; the Gmail service is the interface
    of Gmail.v.  [main_os] runs the program on the machine state of
    OAuth.v, connection steps included; [main_os_web] and
    [main_os_cached] give the whole run on a first and on a later start. *)

From Stdlib Require Import Ascii ZArith Lia.
From stdpp Require Import base list strings option.
From S2P Require Import Prelude GoStrings Extract Gmail Base64 Selector OAuth.

(** The process's environment and the outcome of the connection steps. *)
Record World (Srv : Type) := {
  w_getenv : bytes → bytes;          (** [os.Getenv]: "" when unset *)
  w_setup : SetupError + Srv         (** lines 89-105 of [RetrieveUnreadMessageFromSender] *)
}.
Arguments w_getenv {Srv} _ _.
Arguments w_setup {Srv} _.

(** [fmt.Println(artists)] on a [[]string]: "[a b c]". *)
Definition format_slice (l : list bytes) : bytes := "[" ++ Join l " " ++ "]".

Section Program.
Context `{GmailService Srv}.

(** [main] (lines 74-86). *)
Definition main (w : World Srv) : IO unit :=
  let sender := w_getenv w "TARGET_SENDER" in
  message ← RetrieveUnreadMessageFromSender (w_setup w) sender;
  println message;;
  artists ← lift (extractArtists message);
  if 0 <? length artists then println (format_slice artists)
  else println "No artists found!".

End Program.

(** ** Theorems *)

(** Extraction never stops the program with [log.Fatalf]; it can only panic. *)
Lemma extractArtists_Err_panic s e : extractArtists s = Err e → ∃ why, e = Panic why.
Proof. rewrite extractArtists_mapM, mapM_Err_iff. intros (? & ? & ? & _ & _ & [_ ->]%trimCountry_Err). eauto. Qed.

Section MainTheorems.
Context `{GmailService Srv}.

(** [main] unfolded on every branch. *)
Lemma main_run w :
  let r := RetrieveUnreadMessageFromSender (w_setup w) (w_getenv w "TARGET_SENDER") in
  main w =
  match io_res r with
  | Err e => mkIO (io_out r) (Err e)
  | Ok message =>
      match extractArtists message with
      | Err e => mkIO (io_out r ++ [message ++ ["010"%char]]) (Err e)
      | Ok [] => mkIO (io_out r ++ [message ++ ["010"%char]; ("No artists found!" : bytes) ++ ["010"%char]]) (Ok tt)
      | Ok artists => mkIO (io_out r ++ [message ++ ["010"%char]; format_slice artists ++ ["010"%char]]) (Ok tt)
      end
  end.
Proof.
  cbv zeta. unfold main.
  destruct (RetrieveUnreadMessageFromSender _ _) as [out [message|e]]; [|done].
  rewrite io_bind_Ok, println_bind. cbn [io_out io_res].
  destruct (extractArtists message) as [[|a artists]|e]; done.
Qed.

(** (C24) [main] on every branch: a failed retrieval ends the program
    with its output and nothing more; otherwise the body is printed,
    then the artists as a slice, or "No artists found!", or the
    extraction's panic ends the program. *)
Theorem main_outcome w :
  let r := RetrieveUnreadMessageFromSender (w_setup w) (w_getenv w "TARGET_SENDER") in
  main w =
  match io_res r with
  | Err e => mkIO (io_out r) (Err e)
  | Ok message =>
      match extractArtists message with
      | Err e => mkIO (io_out r ++ [message ++ ["010"%char]]) (Err e)
      | Ok [] => mkIO (io_out r ++ [message ++ ["010"%char]; ("No artists found!" : bytes) ++ ["010"%char]]) (Ok tt)
      | Ok artists => mkIO (io_out r ++ [message ++ ["010"%char]; format_slice artists ++ ["010"%char]]) (Ok tt)
      end
  end.
Proof. apply main_run. Qed.

(** (C25) No selected body is reported alongside a retrieval error: when
    the program ends with [log.Fatalf], it has printed no
    "Decoded body: " line. *)
Theorem main_fatal_no_body w m :
  io_res (main w) = Err (Fatal m) →
  ∀ line, line ∈ io_out (main w) → ¬ ("Decoded body: " : bytes) `prefix_of` line.
Proof.
  rewrite main_run. cbv zeta.
  destruct (RetrieveUnreadMessageFromSender _ _) as [out res] eqn:Er.
  cbn [io_res io_out]. destruct res as [message|e].
  - destruct (extractArtists message) as [[|a l]|e] eqn:Ex; try done.
    intros Hres. injection Hres as ->.
    apply extractArtists_Err_panic in Ex as [? ?]. discriminate.
  - intros Hres. injection Hres as ->.
    pose proof (Retrieve_fatal_no_body (w_setup w) (w_getenv w "TARGET_SENDER") m) as Hno.
    rewrite Er in Hno. cbn [io_res io_out] in Hno. auto.
Qed.
End MainTheorems.

(** ** The program on the machine

    [main_os] runs [main] from an [OsState]: the connection steps of
    [RetrieveUnreadMessageFromSender] (lines 89-105, [connect_os]), then
    the rest of [main] with the service they produced.  [os.Getenv] is
    pure, so reading the sender before or after connecting is the same. *)

Section OnTheMachine.
Context `{TokenJSON} `{GoogleAPI Config Client Srv} `{!GmailService Srv}.

Definition main_os (getenv : bytes → bytes) : Os unit :=
  srv ← connect_os;
  io (main {| w_getenv := getenv; w_setup := inr srv |}).

Lemma main_os_run getenv st st' out srv :
  connect_os st = (st', mkIO out (Ok srv)) →
  main_os getenv st =
  (st', mkIO (out ++ io_out (main {| w_getenv := getenv; w_setup := inr srv |}))
             (io_res (main {| w_getenv := getenv; w_setup := inr srv |}))).
Proof. intros Hc. unfold main_os. eapply os_bind_ok; [exact Hc|apply io_run|reflexivity]. Qed.

(** (C39) Every later run, once [token.json] holds a token that decodes:
    the whole program leaves the machine as it was (no file written,
    standard input not read) and prints exactly what [main] prints with
    the service built from the cached token: no prompt, no caching
    notice. *)
Theorem main_os_cached getenv st b config t srv :
  os_ReadFile "credentials.json" st = inl b → ConfigFromJSON b GmailReadonlyScope = inl config →
  cached_token st = Some t → NewService (ConfigClient config t) = inl srv →
  main_os getenv st = (st, main {| w_getenv := getenv; w_setup := inr srv |}).
Proof.
  intros Hr Hcf Ht Hns. rewrite (main_os_run _ _ st [] srv); [by destruct (main _)|].
  eapply connect_os_ok; [exact Hr|exact Hcf| |exact Hns]. by apply getClient_from_cache.
Qed.

(** (C29) The first run on a machine with a valid client secret and no
    usable cached token, where the user types a code the server accepts
    and [token.json] can be written: the program prints the
    authorization prompt and the caching notice, then everything [main]
    prints with the service built from the new token, and ends as [main]
    does; afterwards [token.json] holds the encoded token, standard input
    has been read up to the end of the code, and no other file changed. *)
Theorem main_os_web getenv st b config c s code rest tok srv :
  os_ReadFile "credentials.json" st = inl b → ConfigFromJSON b GmailReadonlyScope = inl config →
  cached_token st = None → scan_skip (os_stdin st) = c :: s → scan_word (c :: s) = (code, rest) →
  Exchange config code = inl tok → tokFile ∉ os_denied st → os_disk_full st = false →
  NewService (ConfigClient config tok) = inl srv →
  main_os getenv st =
  (set_files (<[tokFile := EncodeToken tok]> (os_files st)) (set_stdin rest st),
   mkIO ([prompt_line config; saving_line tokFile] ++
         io_out (main {| w_getenv := getenv; w_setup := inr srv |}))
        (io_res (main {| w_getenv := getenv; w_setup := inr srv |}))).
Proof.
  intros Hr Hcf Ct Hs Hw Hx Hd Hf Hns. apply main_os_run.
  eapply connect_os_ok; [exact Hr|exact Hcf| |exact Hns].
  by rewrite getClient_run, Ct, (web_outcome_code _ _ c s code rest tok), Hf.
Qed.

End OnTheMachine.

(** ** Concrete runs *)

(** A line as [fmt.Println] writes it. *)
Definition line (s : string) : bytes := s ++ ["010"%char].

Definition demo_env (v : bytes) : bytes :=
  if bool_decide (v = "TARGET_SENDER") then "news@shows.example" else [].

Definition demo_world (failing : list string) : World Mailbox :=
  {| w_getenv := demo_env; w_setup := inr (demo_mailbox failing) |}.

Lemma main_os_web_witness :
  main_os demo_env fresh_os =
  (after_first_run,
   mkIO ([prompt_line ("demo-client" : bytes); saving_line tokFile] ++
         map line ["Labels:"; "- INBOX"; "- UNREAD"; "Decoded body: Alice (US)"; "Alice (US)"; "[Alice]"])
        (Ok tt)).
Proof.
  rewrite (main_os_web demo_env fresh_os demo_credentials ("demo-client" : bytes) "4"%char
             "/demo-code
" "4/demo-code" ["010"%char] demo_token (demo_mailbox []));
    first [vm_compute; reflexivity | apply not_elem_of_nil].
Defined.

Lemma main_os_cached_witness :
  main_os demo_env cached_os = (cached_os, main (demo_world [])) ∧
  io_out (main (demo_world [])) =
    map line ["Labels:"; "- INBOX"; "- UNREAD"; "Decoded body: Alice (US)"; "Alice (US)"; "[Alice]"].
Proof.
  split; [|vm_compute; reflexivity].
  apply (main_os_cached demo_env cached_os demo_credentials ("demo-client" : bytes) demo_token
           (demo_mailbox [])); vm_compute; reflexivity.
Defined.

Lemma main_fatal_no_body_witness :
  io_res (main (demo_world ["m2"])) =
    Err (Fatal ("Unable to retrieve message: connection reset by peer")) ∧
  ¬ ("Decoded body: " : bytes) `prefix_of` line "Labels:".
Proof.
  split; [vm_compute; reflexivity|].
  apply (main_fatal_no_body (demo_world ["m2"]) "Unable to retrieve message: connection reset by peer").
  - vm_compute. reflexivity.
  - vm_compute. left.
Defined.
